(** * FileContentStorage: a directory-backed content store

    Shallow embedding of [examples/implementation/FileContentStorage.ts]
    together with the parts of Node's [path] module and of [fs-extra],
    [glob] and [promisepipe] that the class calls.

    The file system is a finite map from normalised absolute paths (lists
    of segments) to nodes.  Every asynchronous method of the class becomes
    a computation in a state-and-exception monad over a [World]: the file
    tree, a schedule of injected I/O faults and the stream of values that
    [Math.random] is going to return. *)

From Stdlib Require Import ZArith NArith QArith Qround Ascii String.
From Stdlib Require Import Decimal DecimalString DecimalZ.
From stdpp Require Import base tactics option list gmap strings fin_maps.

Local Open Scope string_scope.
Local Open Scope list_scope.

(** ** Strings *)

Definition is_slash (c : ascii) : bool := Ascii.eqb c "/".
Definition is_dot (c : ascii) : bool := Ascii.eqb c ".".

(** [s.split('/')] *)
Fixpoint split_slash (s : string) : list string :=
  match s with
  | EmptyString => [EmptyString]
  | String c rest =>
      if is_slash c then EmptyString :: split_slash rest
      else match split_slash rest with
           | seg :: segs => String c seg :: segs
           | [] => [String c EmptyString]
           end
  end.

(** [parts.join(sep)] *)
Fixpoint join_with (sep : string) (parts : list string) : string :=
  match parts with
  | [] => EmptyString
  | [p] => p
  | p :: ps => p +:+ sep +:+ join_with sep ps
  end.

Fixpoint ends_with_slash (s : string) : bool :=
  match s with
  | EmptyString => false
  | String c EmptyString => is_slash c
  | String _ rest => ends_with_slash rest
  end.

Definition nonempty (s : string) : bool :=
  match s with EmptyString => false | _ => true end.

Definition has_slash (s : string) : bool :=
  existsb is_slash (list_ascii_of_string s).

Definition has_dot (s : string) : bool :=
  existsb is_dot (list_ascii_of_string s).

Definition starts_with_dot (s : string) : bool :=
  match s with String c _ => is_dot c | EmptyString => false end.

(** ** Node's [path] module (posix flavour)

    A normalised absolute path is the list of its segments below the
    file-system root; [slash] records a trailing separator, which
    [path.normalize] keeps.  The class is constructed with "the absolute
    path to the directory where the content should be stored", so every
    path it builds is absolute; a string without a leading separator is
    read from the root as well (the process working directory is [/]). *)

Record fpath := FPath { segs : list string; slash : bool }.

Module path.

(** One step of [normalizeString]: [stack] holds the segments kept so
    far, innermost first.  Empty segments and [.] are dropped, [..]
    removes the innermost segment and is dropped at the root
    ([allowAboveRoot] is false for absolute paths). *)
Definition step (stack : list string) (seg : string) : list string :=
  if String.eqb seg "" then stack
  else if String.eqb seg "." then stack
  else if String.eqb seg ".." then tail stack
  else seg :: stack.

Definition resolve_onto (stack : list string) (l : list string) : list string :=
  fold_left step l stack.

Definition resolve (l : list string) : list string :=
  rev (resolve_onto [] l).

(** [path.normalize(p)] *)
Definition normalize (p : string) : fpath :=
  let kept := resolve (split_slash p) in
  {| segs := kept;
     slash := ends_with_slash p && negb (bool_decide (kept = [])) |}.

(** [path.join(...parts)]: the non-empty arguments are joined with the
    separator and the result is normalised. *)
Definition join (parts : list string) : fpath :=
  normalize (join_with "/" (List.filter nonempty parts)).

(** [path.dirname(p)] of a normalised path: trailing separators are
    ignored and the directory of the root is the root. *)
Definition dirname (p : fpath) : fpath :=
  {| segs := removelast (segs p); slash := false |}.

(** [path.relative(from, to)] of two normalised paths, as segments. *)
Fixpoint relative_segs (from to : list string) : list string :=
  match from, to with
  | f :: from', t :: to' =>
      if String.eqb f t then relative_segs from' to'
      else repeat ".." (length from) ++ to
  | _, _ => repeat ".." (length from) ++ to
  end.

Definition relative (from to : fpath) : string :=
  join_with "/" (relative_segs (segs from) (segs to)).

(** The string a normalised absolute path stands for. *)
Definition to_string (p : fpath) : string :=
  "/" +:+ join_with "/" (segs p) +:+ (if slash p then "/" else "").

End path.

(** ** Content ids *)

(** Modelled from the spec: the [ContentId] declaration of [src/types],
    which the storage class imports.  A content id is an integer (the
    generated ones lie in [1, 2^32]); the store only ever calls
    [toString()] on it, which for an integer is the decimal numeral, with
    a leading minus sign for a negative one. *)
Definition ContentId := Z.

Definition toString (id : ContentId) : string :=
  NilZero.string_of_int (Z.to_int id).

(** ** Numbers and [Math.random]

    [Math.random()] returns a double in [0, 1).  Every such double is a
    dyadic rational [mantissa / 2^scale] with [mantissa < 2^scale]. *)

Record unit_double := UnitDouble {
  mantissa : N;
  scale : N;
  below_one : (mantissa <? 2 ^ scale)%N = true
}.

Definition value (r : unit_double) : Q :=
  (inject_Z (Z.of_N (mantissa r)) / inject_Z (2 ^ Z.of_N (scale r)))%Q.

Definition Math_ceil (x : Q) : Z := Qceiling x.
Definition Math_floor (x : Q) : Z := Qfloor x.

(** ** Errors and results

    A JavaScript [Error] carries a [message]; the errors raised by the
    file system also carry a [code] such as [ENOENT]. *)

Record Error := MkError { code : option string; message : string }.

(** [new Error(msg)] *)
Definition new_Error (msg : string) : Error := {| code := None; message := msg |}.

(** An error of the file-system layer. *)
Definition SystemError (c : string) (what : string) : Error :=
  {| code := Some c; message := c +:+ ": " +:+ what |}.

Definition ENOENT := SystemError "ENOENT" "no such file or directory".
Definition ENOTDIR := SystemError "ENOTDIR" "not a directory".
Definition EISDIR := SystemError "EISDIR" "illegal operation on a directory".
Definition EEXIST := SystemError "EEXIST" "file already exists".

Global Instance Error_eq_dec : EqDecision Error.
Proof. solve_decision. Defined.

Inductive Result (A : Type) : Type :=
  | Ok (a : A)
  | Err (e : Error).
Arguments Ok {A} a.
Arguments Err {A} e.

(** ** The file tree *)

Inductive node :=
  | File (data : string)
  | Dir.

Global Instance node_eq_dec : EqDecision node.
Proof. solve_decision. Defined.

Definition is_file (o : option node) : bool :=
  match o with Some (File _) => true | _ => false end.

Definition is_dir (o : option node) : bool :=
  match o with Some Dir => true | _ => false end.

Abbreviation Tree := (gmap (list string) node).

(** A readable stream handed to the store: the bytes it delivers, and
    the error it ends with when it does not end normally. *)
Record Stream := MkStream { payload : string; failure : option Error }.

(** [fs.createReadStream(p)] returns at once; the file is opened when the
    stream is consumed. *)
Record ReadStream := MkReadStream { source : fpath }.

(** [fs.createWriteStream(p)] likewise opens its file when it is first
    written to. *)
Record WriteStream := MkWriteStream { target : fpath }.

(** A document handed to [writeJSON]: the text [JSON.stringify] yields
    for it, or a value [JSON.stringify] throws on (a cyclic object). *)
Inductive Document :=
  | Json (text : string)
  | Unserializable (why : string).

(** Modelled from the spec: the [IContentMetadata] declaration of
    [src/types]; the metadata is a document the store never looks into. *)
Definition IContentMetadata := Document.

(** Modelled from the spec: the [IUser] and [Permission] declarations of
    [src/types], which the storage class imports.  The store never looks
    inside a user; the permissions are the five capabilities the spec
    names (View, Edit, Delete, Download, Embed). *)
Record IUser := MkUser { userId : string; userName : string }.

Inductive Permission :=
  | Delete
  | Download
  | Edit
  | Embed
  | View.

Global Instance Permission_eq_dec : EqDecision Permission.
Proof. solve_decision. Defined.

(** ** The world and the monad of asynchronous calls

    [pending] schedules injected faults (disk full, permission denied):
    each call into the file-system layer that can reject takes the head
    of the list; [Some e] makes the call reject with [e] before it
    touches the tree, [None] (or an exhausted schedule) lets it run.
    [entropy] lists the doubles [Math.random] will return and [drawn]
    counts those already taken. *)

Record World := MkWorld {
  tree : Tree;
  pending : list (option Error);
  entropy : nat -> unit_double;
  drawn : nat
}.

Definition with_tree (t : Tree) (w : World) : World :=
  {| tree := t; pending := pending w; entropy := entropy w; drawn := drawn w |}.

Definition with_pending (f : list (option Error)) (w : World) : World :=
  {| tree := tree w; pending := f; entropy := entropy w; drawn := drawn w |}.

Definition IO (A : Type) : Type := World -> Result A * World.

Definition ret {A} (a : A) : IO A := fun w => (Ok a, w).

Definition throw {A} (e : Error) : IO A := fun w => (Err e, w).

Definition bind {A B} (m : IO A) (k : A -> IO B) : IO B :=
  fun w =>
    match m w with
    | (Ok a, w') => k a w'
    | (Err e, w') => (Err e, w')
    end.

(** [try { body } catch (error) { handler }] *)
Definition try_catch {A} (body : IO A) (handler : Error -> IO A) : IO A :=
  fun w =>
    match body w with
    | (Ok a, w') => (Ok a, w')
    | (Err e, w') => handler e w'
    end.

Notation "'let*' x ':=' m 'in' k" := (bind m (fun x => k))
  (at level 10, x name, m at level 100, k at level 200).
Notation "m ';;' k" := (bind m (fun _ => k))
  (at level 100, k at level 200, right associativity).

(** [Math.random()] *)
Definition Math_random : IO unit_double :=
  fun w =>
    (Ok (entropy w (drawn w)),
     {| tree := tree w; pending := pending w; entropy := entropy w;
        drawn := S (drawn w) |}).

(** A call into the file system that may reject: it takes the next slot
    of the fault schedule. *)
Definition syscall {A} (run : Tree -> Result A * Tree) : IO A :=
  fun w =>
    let w' := with_pending (tail (pending w)) w in
    match head (pending w) with
    | Some (Some e) => (Err e, w')
    | _ => let '(r, t) := run (tree w) in (r, with_tree t w')
    end.

(** ** The file-system layer: [fs-extra], [promisepipe] and [glob] *)

Definition newline : string := String (ascii_of_nat 10) EmptyString.

Module fsExtra.

(** The node at a list of segments; the root is always a directory. *)
Definition node_at (t : Tree) (l : list string) : option node :=
  match l with
  | [] => Some Dir
  | _ => t !! l
  end.

(** What a path names: a trailing separator only names a directory. *)
Definition stat (t : Tree) (p : fpath) : option node :=
  match node_at t (segs p) with
  | Some (File d) => if slash p then None else Some (File d)
  | other => other
  end.

(** [fsExtra.pathExists(p)]: [fs.access] with every error turned into
    [false]; it never rejects, and no fault is injected into it. *)
Definition pathExists (p : fpath) : IO bool :=
  fun w => (Ok (bool_decide (is_Some (stat (tree w) p))), w).

(** [mkdir -p]: walk down from the root, creating what is missing. *)
Fixpoint mkdirs (above below : list string) (t : Tree) : Result unit * Tree :=
  match below with
  | [] => (Ok tt, t)
  | s :: below' =>
      let here := above ++ [s] in
      match t !! here with
      | Some (File _) =>
          (Err (match below' with [] => EEXIST | _ => ENOTDIR end), t)
      | Some Dir => mkdirs here below' t
      | None => mkdirs here below' (<[here := Dir]> t)
      end
  end.

(** [fsExtra.ensureDir(p)] *)
Definition ensureDir (p : fpath) : IO unit :=
  syscall (mkdirs [] (segs p)).

(** [open(p, 'w')]: the error it fails with, if any. *)
Definition open_for_writing (t : Tree) (p : fpath) : option Error :=
  match node_at t (removelast (segs p)) with
  | None => Some ENOENT
  | Some (File _) => Some ENOTDIR
  | Some Dir =>
      match node_at t (segs p) with
      | Some Dir => Some EISDIR
      | Some (File _) => if slash p then Some ENOTDIR else None
      | None => if slash p then Some EISDIR else None
      end
  end.

(** [fs.writeFile(p, data)] *)
Definition writeFile (p : fpath) (data : string) (t : Tree) : Result unit * Tree :=
  match open_for_writing t p with
  | Some e => (Err e, t)
  | None => (Ok tt, <[segs p := File data]> t)
  end.

(** [fsExtra.writeJSON(p, obj)]: [JSON.stringify(obj) + EOL] is computed
    first, then written with [fs.writeFile]. *)
Definition writeJSON (p : fpath) (obj : Document) : IO unit :=
  match obj with
  | Unserializable why => throw (new_Error why)
  | Json text => syscall (writeFile p (text +:+ newline))
  end.

(** [fsExtra.remove(p)]: [rm -rf]; a missing path is not an error. *)
Definition remove_tree (p : fpath) (t : Tree) : Result unit * Tree :=
  (Ok tt, filter (fun entry => ~ segs p `prefix_of` entry.1) t).

Definition remove (p : fpath) : IO unit :=
  syscall (remove_tree p).

Definition createWriteStream (p : fpath) : WriteStream := {| target := p |}.

(** Piping a stream into a write stream: the file is opened (and
    truncated), the payload is copied, and the copy fails when the source
    ends with an error. *)
Definition pipe_to_file (s : Stream) (p : fpath) (t : Tree) : Result unit * Tree :=
  match open_for_writing t p with
  | Some e => (Err e, t)
  | None =>
      let t' := <[segs p := File (payload s)]> t in
      match failure s with
      | Some e => (Err e, t')
      | None => (Ok tt, t')
      end
  end.

Definition createReadStream (p : fpath) : ReadStream := {| source := p |}.

(** Consuming a read stream to its end: the bytes of the file, or the
    error the stream emits. *)
Definition consume (t : Tree) (s : ReadStream) : Result string :=
  match stat t (source s) with
  | Some (File d) => Ok d
  | Some Dir => Err EISDIR
  | None => Err ENOENT
  end.

End fsExtra.

(** [promisepipe(stream, writeStream)] *)
Definition promisepipe (s : Stream) (ws : WriteStream) : IO unit :=
  syscall (fsExtra.pipe_to_file s (target ws)).

(** [glob(pattern, options)], for the patterns the store builds: a
    directory taken literally (a storage root without glob magic), then a
    globstar, then star-dot-star; any other pattern is outside the model
    and matches nothing.  With the default [dot: false], a star at the
    start of a segment and the globstar do not match a name that begins
    with a dot, so star-dot-star matches the names that contain a dot
    after their first character. *)
Record GlobOptions := { ignore : list fpath; nodir : bool }.

Module glob.

Definition star_dot_star (name : string) : bool :=
  negb (starts_with_dot name) && has_dot name.

Definition globstar (dirs : list string) : bool :=
  forallb (fun d => negb (starts_with_dot d)) dirs.

(** The literal directory a pattern starts with. *)
Definition directory_of (pattern : fpath) : option (list string) :=
  match rev (segs pattern) with
  | name :: stars :: dir =>
      if String.eqb name "*.*" && String.eqb stars "**" then Some (rev dir) else None
  | _ => None
  end.

Fixpoint strip_prefix (pre l : list string) : option (list string) :=
  match pre, l with
  | [], _ => Some l
  | a :: pre', b :: l' => if String.eqb a b then strip_prefix pre' l' else None
  | _ :: _, [] => None
  end.

Definition pattern_matches (dir : list string) (l : list string) : bool :=
  match strip_prefix dir l with
  | Some rel =>
      match rel with
      | [] => false
      | _ => globstar (removelast rel) && star_dot_star (List.last rel "")
      end
  | None => false
  end.

Definition selected (dir : list string) (options : GlobOptions)
    (entry : list string * node) : bool :=
  pattern_matches dir entry.1
  && negb (nodir options && is_dir (Some entry.2))
  && negb (bool_decide (entry.1 ∈ List.map segs (ignore options))).

(** The matches, as normalised absolute paths; their order is the one
    the map enumerates its entries in. *)
Definition run (pattern : fpath) (options : GlobOptions) (t : Tree) : list fpath :=
  match directory_of pattern with
  | Some dir =>
      List.map (fun entry => FPath entry.1 false)
               (List.filter (selected dir options) (map_to_list t))
  | None => []
  end.

End glob.

Definition globPromise (pattern : fpath) (options : GlobOptions) : IO (list fpath) :=
  fun w => (Ok (glob.run pattern options (tree w)), w).

(** ** The storage class *)

Record FileContentStorage := { contentPath : string }.

Section Methods.

Variable this : FileContentStorage.

(** [getRandomInt(min, max)], with [random] the value [Math.random()]
    returns.  Numbers are exact rationals here; the one call the class
    makes has the span [2^32], a power of two, for which the product of
    doubles is exact as well. *)
Definition getRandomInt (min max : Q) (random : unit_double) : Z :=
  let finalMin := Math_ceil min in
  let finalMax := Math_floor max in
  (Math_floor (value random * inject_Z (finalMax - finalMin + 1)) + finalMin)%Z.

Definition addContentFile
    (id : ContentId) (filename : string) (stream : Stream) (user : IUser) : IO unit :=
  let* present := fsExtra.pathExists (path.join [contentPath this; toString id]) in
  if negb present then
    throw (new_Error ("Cannot add file " +:+ filename +:+ " to content with id "
                      +:+ toString id +:+ ": Content with this id does not exist."))
  else
    let fullPath := path.join [contentPath this; toString id; "content"; filename] in
    fsExtra.ensureDir (path.dirname fullPath);;
    let writeStream := fsExtra.createWriteStream fullPath in
    promisepipe stream writeStream.

Definition contentExists (contentId : ContentId) : IO bool :=
  fsExtra.pathExists (path.join [contentPath this; toString contentId]).

(** The [do ... while (exists && counter < 5)] loop of [createContentId];
    [fuel] bounds the number of further iterations. *)
Fixpoint createContentId_loop (fuel : nat) (counter : nat) : IO (option (ContentId * bool)) :=
  let* random := Math_random in
  let id := getRandomInt 1 (inject_Z (2 ^ 32)) random in
  let counter := counter + 1 in
  let p := path.join [contentPath this; toString id] in
  let* exists_ := fsExtra.pathExists p in
  if exists_ && bool_decide (counter < 5) then
    match fuel with
    | O => ret None
    | S fuel' => createContentId_loop fuel' counter
    end
  else ret (Some (id, exists_)).

Definition createContentId_fuel (fuel : nat) : IO (option ContentId) :=
  let* out := createContentId_loop fuel 0 in
  match out with
  | None => ret None
  | Some (id, exists_) =>
      if exists_ then throw (new_Error "Could not generate id for new content.")
      else ret (Some id)
  end.

(** Four further iterations are all the loop can make: the counter is 1
    after the first round and the loop stops when it reaches 5. *)
Definition createContentId : IO ContentId :=
  let* out := createContentId_fuel 4 in
  match out with
  | Some id => ret id
  | None => throw (new_Error "createContentId: out of fuel")
  end.

(** The body of the [try] block of [createContent]. *)
Definition createContent_try
    (metadata : IContentMetadata) (content : Document) (id : ContentId) : IO unit :=
  fsExtra.ensureDir (path.join [contentPath this; toString id]);;
  fsExtra.ensureDir (path.join [contentPath this; toString id; "content"]);;
  fsExtra.writeJSON (path.join [contentPath this; toString id; "h5p.json"]) metadata;;
  fsExtra.writeJSON
    (path.join [contentPath this; toString id; "content"; "content.json"]) content.

(** The [catch (error)] block of [createContent]. *)
Definition createContent_catch (id : ContentId) (error : Error) : IO unit :=
  fsExtra.remove (path.join [contentPath this; toString id]);;
  throw (new_Error ("Could not create content: " +:+ message error)).

Definition createContent
    (metadata : IContentMetadata) (content : Document) (user : IUser)
    (id : option ContentId) : IO ContentId :=
  let* id := match id with
             | None => createContentId
             | Some id => ret id
             end in
  try_catch (createContent_try metadata content id) (createContent_catch id);;
  ret id.

Definition deleteContent (id : ContentId) (user : option IUser) : IO unit :=
  let* present := fsExtra.pathExists (path.join [contentPath this; toString id]) in
  if negb present then
    throw (new_Error ("Cannot delete content with id " +:+ toString id
                      +:+ ": It does not exist."))
  else
    fsExtra.remove (path.join [contentPath this; toString id]).

Definition getContentFiles (contentId : ContentId) (user : IUser) : IO (list string) :=
  let contentDirectoryPath := path.join [contentPath this; toString contentId; "content"] in
  let* absolutePaths :=
    globPromise
      (path.join [path.to_string contentDirectoryPath; "**"; "*.*"])
      {| ignore := [path.join [path.to_string contentDirectoryPath; "content.json"]];
         nodir := true |} in
  ret (List.map (fun p => path.relative contentDirectoryPath p) absolutePaths).

Definition getContentFileStream
    (id : ContentId) (filename : string) (user : IUser) : ReadStream :=
  fsExtra.createReadStream (path.join [contentPath this; toString id; filename]).

Definition getUserPermissions (contentId : ContentId) (user : IUser) : IO (list Permission) :=
  ret [Delete; Download; Edit; Embed; View].

End Methods.

(** ** Vocabulary of the properties *)

(** A regular segment is a name that normalisation keeps as it is: it is
    not empty, not [.] or [..], and holds no separator. *)
Definition regular (seg : string) : bool :=
  negb (String.eqb seg "") && negb (String.eqb seg ".")
  && negb (String.eqb seg "..") && negb (has_slash seg).

(** A relative path climbs when one of its [..] segments has no earlier
    segment of the path to cancel: read from [depth] segments below its
    start, the path then rises above that start.  A path without [..]
    segments never climbs. *)
Fixpoint climbs_from (depth : nat) (l : list string) : bool :=
  match l with
  | [] => false
  | seg :: rest =>
      if String.eqb seg "" then climbs_from depth rest
      else if String.eqb seg "." then climbs_from depth rest
      else if String.eqb seg ".." then
        match depth with
        | O => true
        | S above => climbs_from above rest
        end
      else climbs_from (S depth) rest
  end.

Definition climbs (p : string) : bool := climbs_from 0 (split_slash p).

(** The content id's own subdirectory and, below it, its file area. *)
Definition subdirectory (this : FileContentStorage) (id : ContentId) : fpath :=
  path.join [contentPath this; toString id].

Definition file_area (this : FileContentStorage) (id : ContentId) : fpath :=
  path.join [contentPath this; toString id; "content"].


(** In a well-formed tree every entry sits in a directory. *)
Definition well_formed (t : Tree) : Prop :=
  map_Forall (fun l _ => fsExtra.node_at t (removelast l) = Some Dir) t.

Definition plain_chars (s : string) : Prop :=
  Forall (fun c => is_slash c = false /\ is_dot c = false) (list_ascii_of_string s).

(** The storage root, as segments. *)
Definition root (this : FileContentStorage) : list string :=
  path.resolve (split_slash (contentPath this)).

(** The [k]-th id [createContentId] tries when it starts in [w]. *)
Definition candidate (w : World) (k : nat) : ContentId :=
  getRandomInt 1 (inject_Z (2 ^ 32)) (entropy w (drawn w + k)).

(** Whether the subdirectory of [id] exists in [w]. *)
Definition taken (this : FileContentStorage) (w : World) (id : ContentId) : bool :=
  bool_decide (is_Some (fsExtra.stat (tree w) (subdirectory this id))).


(** The world after [n] more draws of [Math.random]. *)
Definition advance (n : nat) (w : World) : World :=
  {| tree := tree w; pending := pending w; entropy := entropy w; drawn := drawn w + n |}.

(** ** Concrete stores and worlds used in the examples *)

Definition demo_store : FileContentStorage := {| contentPath := "/data" |}.
Definition demo_user : IUser := {| userId := "7"; userName := "alice" |}.
Definition no_entropy : nat -> unit_double := fun _ => UnitDouble 0 0 eq_refl.
Definition empty_world : World :=
  {| tree := ∅; pending := []; entropy := no_entropy; drawn := 0 |}.

(** Nothing of the wrong kind sits where [createContent] writes: the
    file area is not a regular file and the two documents are not
    directories. *)
Definition layout_clear (this : FileContentStorage) (id : ContentId) (t : Tree) : Prop :=
  is_file (fsExtra.stat t (file_area this id)) = false
  /\ is_dir (fsExtra.stat t (path.join [contentPath this; toString id; "h5p.json"])) = false
  /\ is_dir (fsExtra.stat t
               (path.join [contentPath this; toString id; "content"; "content.json"]))
     = false.

(** The id [createContent] works with: the caller's, or a generated one. *)
Definition assign_id (this : FileContentStorage) (id : option ContentId) : IO ContentId :=
  match id with
  | None => createContentId this
  | Some id => ret id
  end.

(** The next [n] calls into the file system meet no injected fault. *)
Definition fault_free (n : nat) (w : World) : Prop :=
  Forall (fun slot => slot = None) (take n (pending w)).




(** Content 42 with one attached file, as [createContent] and
    [addContentFile] leave it. *)
Definition ten_bytes : Stream := {| payload := "0123456789"; failure := None |}.

Definition created_world : World :=
  (createContent demo_store (Json "{}") (Json "{}") demo_user (Some 42%Z) empty_world).2.

Definition stored_world : World :=
  (addContentFile demo_store 42%Z "images/a.png" ten_bytes demo_user created_world).2.

(** Contents 42 and 43 side by side. *)
Definition two_contents_world : World :=
  (createContent demo_store (Json "{43}") (Json "[43]") demo_user (Some 43%Z)
     created_world).2.

(** A world whose first random draw yields the id 42. *)
Definition draw_42 : unit_double := UnitDouble 41 32 eq_refl.

Definition lucky_world : World :=
  {| tree := ∅; pending := []; entropy := fun _ => draw_42; drawn := 0 |}.

(** Content 42 with a second attached file, whose name has no dot. *)
Definition licence : Stream := {| payload := "MIT"; failure := None |}.

Definition licensed_world : World :=
  (addContentFile demo_store 42%Z "LICENSE" licence demo_user stored_world).2.

(** ** Vocabulary of the further properties *)

(** Going from [t] to [t'], nothing changed outside [base], except that
    directories missing on the way down to [base] may have been created. *)
Definition same_outside (base : list string) (t t' : Tree) : Prop :=
  forall l, ~ base `prefix_of` l ->
    l = [] \/ ~ l `prefix_of` base \/ is_Some (t !! l) ->
    t' !! l = t !! l.

(** Content 42 is stored and [Math.random] keeps drawing the id 7. *)
Definition draw_7 : unit_double := UnitDouble 6 32 eq_refl.

Definition busy_world : World :=
  {| tree := tree created_world; pending := []; entropy := fun _ => draw_7; drawn := 0 |}.

(** Content 42 is stored and [Math.random] keeps drawing the id 42. *)
Definition crowded_world : World :=
  {| tree := tree created_world; pending := []; entropy := fun _ => draw_42; drawn := 0 |}.


(** * Properties *)

(** ** The path module on examples *)

Example toString_42 : toString 42%Z = "42".
Proof. reflexivity. Qed.

Example join_normalises :
  path.join ["/data"; toString 42%Z; "../../etc/passwd"] = FPath ["etc"; "passwd"] false.
Proof. reflexivity. Qed.

Example join_keeps_trailing_separator :
  path.join ["/data/"; toString 42%Z; "content"; "images/"]
  = FPath ["data"; "42"; "content"; "images"] true.
Proof. reflexivity. Qed.

Example join_skips_empty_arguments :
  path.join ["/data"; toString 42%Z; "content"; ""] = FPath ["data"; "42"; "content"] false.
Proof. reflexivity. Qed.

Example relative_below :
  path.relative (FPath ["data"; "42"; "content"] false)
                (FPath ["data"; "42"; "content"; "images"; "a.png"] false)
  = "images/a.png".
Proof. reflexivity. Qed.

Example climbing_paths :
  climbs "images/a.png" = false /\ climbs "a/../b.png" = false
  /\ climbs "../43/h5p.json" = true /\ climbs "a/../../x" = true.
Proof. by repeat split. Qed.

Example to_string_of_join :
  path.to_string (path.join ["/data"; toString 42%Z; "content"]) = "/data/42/content".
Proof. reflexivity. Qed.

(** ** Strings and segments *)

Lemma split_slash_nonnil s : split_slash s <> [].
Proof. destruct s as [|c s]; simpl; [done|]. destruct (is_slash c); [done|]. by destruct (split_slash s). Qed.

Lemma split_slash_app a b :
  split_slash (a +:+ "/" +:+ b) = split_slash a ++ split_slash b.
Proof.
  induction a as [|c a IH]; simpl; [done|].
  destruct (is_slash c); [by rewrite IH|].
  rewrite IH. destruct (split_slash a) eqn:E; [by apply split_slash_nonnil in E|done].
Qed.

Lemma split_slash_plain s : has_slash s = false -> split_slash s = [s].
Proof.
  unfold has_slash. induction s as [|c s IH]; simpl; [done|].
  intros [Hc Hs]%orb_false_iff. rewrite Hc, (IH Hs). done.
Qed.

Lemma ends_with_slash_plain s : has_slash s = false -> ends_with_slash s = false.
Proof.
  unfold has_slash. induction s as [|c s IH]; simpl; [done|].
  intros [Hc Hs]%orb_false_iff. destruct s; [done|]. by apply IH.
Qed.

Lemma ends_with_slash_app a b :
  nonempty b = true -> ends_with_slash (a +:+ b) = ends_with_slash b.
Proof.
  intros Hb. induction a as [|c a IH]; simpl; [done|].
  rewrite <- IH. destruct (a +:+ b) eqn:E; [|done].
  destruct a; [|done]. change (b = "") in E. by rewrite E in Hb.
Qed.

Lemma append_assoc (a b c : string) : (a +:+ b) +:+ c = a +:+ (b +:+ c).
Proof. induction a as [|x a IH]; [done|]. change (String x ((a +:+ b) +:+ c) = String x (a +:+ b +:+ c)). by rewrite IH. Qed.


Lemma join_with_snoc sep l p :
  l <> [] -> join_with sep (l ++ [p]) = join_with sep l +:+ sep +:+ p.
Proof.
  induction l as [|a l IH]; [done|]. intros _.
  destruct l as [|b l]; [done|].
  change (join_with sep ((a :: b :: l) ++ [p]))
    with (a +:+ sep +:+ join_with sep ((b :: l) ++ [p])).
  rewrite IH by done.
  change (join_with sep (a :: b :: l)) with (a +:+ sep +:+ join_with sep (b :: l)).
  by rewrite !append_assoc.
Qed.

Lemma split_slash_join l :
  l <> [] -> split_slash (join_with "/" l) = flat_map split_slash l.
Proof.
  induction l as [|a l IH]; [done|]. intros _.
  destruct l as [|b l]; [simpl; by rewrite app_nil_r|].
  change (join_with "/" (a :: b :: l)) with (a +:+ "/" +:+ join_with "/" (b :: l)).
  rewrite split_slash_app, IH by done. done.
Qed.

Lemma ends_with_slash_join l p :
  nonempty p = true ->
  ends_with_slash (join_with "/" (l ++ [p])) = ends_with_slash p.
Proof.
  intros Hp. destruct l as [|a l]; [done|].
  rewrite join_with_snoc by done.
  rewrite <- append_assoc. by apply ends_with_slash_app.
Qed.

(** ** Normalisation *)

Lemma resolve_onto_app stack a b :
  path.resolve_onto stack (a ++ b) = path.resolve_onto (path.resolve_onto stack a) b.
Proof. apply fold_left_app. Qed.

Lemma step_regular stack seg :
  regular seg = true -> path.step stack seg = seg :: stack.
Proof.
  unfold regular, path.step. intros H.
  repeat (apply andb_true_iff in H as [H ?]).
  repeat match goal with H : negb ?b = true |- _ => apply negb_true_iff in H; rewrite H end.
  done.
Qed.

Lemma resolve_onto_regular stack l :
  Forall (fun seg => regular seg = true) l ->
  path.resolve_onto stack l = rev l ++ stack.
Proof.
  intros H. revert stack. induction H as [|seg l Hseg _ IH]; intros stack; [done|].
  simpl. rewrite step_regular, IH by done. by rewrite <- app_assoc.
Qed.




Lemma resolve_onto_filter stack parts :
  path.resolve_onto stack (flat_map split_slash (List.filter nonempty parts))
  = path.resolve_onto stack (flat_map split_slash parts).
Proof.
  revert stack. induction parts as [|p parts IH]; intros stack; [done|].
  simpl. destruct p as [|c p]; simpl.
  - apply IH.
  - rewrite !resolve_onto_app. apply IH.
Qed.

Lemma join_segs parts :
  segs (path.join parts) = path.resolve (flat_map split_slash parts).
Proof.
  unfold path.join, path.normalize, path.resolve. simpl. f_equal.
  rewrite <- resolve_onto_filter.
  destruct (List.filter nonempty parts) eqn:E; [done|].
  by rewrite split_slash_join.
Qed.

(** ** Decimal numerals *)

Lemma plain_chars_no_slash s : plain_chars s -> has_slash s = false.
Proof.
  unfold plain_chars, has_slash.
  induction 1 as [|c l [Hc _] _ IH]; [done|]. simpl. by rewrite Hc, IH.
Qed.

Lemma regular_of_plain s : s <> "" -> plain_chars s -> regular s = true.
Proof.
  intros Hne Hp. unfold regular. rewrite (plain_chars_no_slash s Hp).
  destruct s as [|c s]; [done|]. inversion Hp as [|? ? [_ Hd] _]; subst.
  unfold is_dot in Hd.
  assert (c <> "."%char) as Hc by (by apply Ascii.eqb_neq).
  repeat (apply andb_true_iff; split); try done; apply negb_true_iff, String.eqb_neq; congruence.
Qed.

Lemma uint_plain d : plain_chars (NilEmpty.string_of_uint d).
Proof. induction d; simpl; constructor; done. Qed.

Lemma uint_string_regular d : regular (NilZero.string_of_uint d) = true.
Proof.
  apply regular_of_plain.
  - by destruct d.
  - destruct d; try apply uint_plain. by repeat constructor.
Qed.

Lemma toString_regular id : regular (toString id) = true.
Proof.
  unfold toString, NilZero.string_of_int. destruct (Z.to_int id) as [d|d].
  - apply uint_string_regular.
  - apply regular_of_plain; [done|].
    constructor; [done|]. destruct d; try apply uint_plain. by repeat constructor.
Qed.

Lemma toString_no_slash id : has_slash (toString id) = false.
Proof.
  assert (H := toString_regular id). unfold regular in H.
  apply andb_true_iff in H as [_ H]. by apply negb_true_iff.
Qed.

(** ** The paths the store builds *)

Lemma flat_map_split_regular l :
  Forall (fun seg => regular seg = true) l -> flat_map split_slash l = l.
Proof.
  induction 1 as [|seg l Hseg _ IH]; [done|]. simpl. rewrite IH.
  rewrite split_slash_plain; [done|].
  unfold regular in Hseg. apply andb_true_iff in Hseg as [_ H]. by apply negb_true_iff.
Qed.

Lemma regular_nonempty seg : regular seg = true -> nonempty seg = true.
Proof. by destruct seg. Qed.

Lemma regular_no_slash seg : regular seg = true -> has_slash seg = false.
Proof.
  unfold regular. intros H. apply andb_true_iff in H as [_ H]. by apply negb_true_iff.
Qed.

Lemma filter_nonempty_regular l :
  Forall (fun seg => regular seg = true) l -> List.filter nonempty l = l.
Proof.
  induction 1 as [|seg l Hseg _ IH]; [done|]. simpl.
  by rewrite (regular_nonempty _ Hseg), IH.
Qed.

Lemma filter_nonempty_snoc l p :
  nonempty p = true -> List.filter nonempty (l ++ [p]) = List.filter nonempty l ++ [p].
Proof. intros Hp. rewrite List.filter_app. simpl. by rewrite Hp. Qed.

Lemma ends_with_slash_joined l p :
  regular p = true ->
  ends_with_slash (join_with "/" (List.filter nonempty (l ++ [p]))) = false.
Proof.
  intros Hp. rewrite filter_nonempty_snoc by (by apply regular_nonempty).
  rewrite ends_with_slash_join by (by apply regular_nonempty).
  by apply ends_with_slash_plain, regular_no_slash.
Qed.

Lemma resolve_root_app this l :
  path.resolve (split_slash (contentPath this) ++ l)
  = rev (path.resolve_onto (rev (root this)) l).
Proof.
  unfold root, path.resolve. by rewrite resolve_onto_app, rev_involutive.
Qed.

(** Joining the storage root with regular segments appends them. *)
Lemma join_regular this l :
  l <> [] -> Forall (fun seg => regular seg = true) l ->
  path.join (contentPath this :: l) = FPath (root this ++ l) false.
Proof.
  intros Hne Hl.
  assert (segs (path.join (contentPath this :: l)) = root this ++ l) as Hsegs.
  { rewrite join_segs. simpl. rewrite flat_map_split_regular by done.
    rewrite resolve_root_app, resolve_onto_regular by done.
    by rewrite rev_app_distr, !rev_involutive. }
  assert (slash (path.join (contentPath this :: l)) = false) as Hslash.
  { unfold path.join, path.normalize. cbn [slash].
    apply andb_false_iff. left.
    destruct (exists_last Hne) as (l' & p & ->).
    apply Forall_app in Hl as [Hl' Hp]. inversion Hp as [|? ? Hp' _]; subst.
    change (contentPath this :: l' ++ [p]) with ((contentPath this :: l') ++ [p]).
    by apply ends_with_slash_joined. }
  destruct (path.join (contentPath this :: l)) as [sg sl]. simpl in *. by subst.
Qed.

Lemma subdirectory_eq this id :
  subdirectory this id = FPath (root this ++ [toString id]) false.
Proof.
  apply join_regular; [done|]. repeat constructor. apply toString_regular.
Qed.

Lemma file_area_eq this id :
  file_area this id = FPath (root this ++ [toString id; "content"]) false.
Proof.
  apply join_regular; [done|]. repeat constructor. apply toString_regular.
Qed.

Lemma metadata_path_eq this id :
  path.join [contentPath this; toString id; "h5p.json"]
  = FPath (root this ++ [toString id; "h5p.json"]) false.
Proof.
  apply join_regular; [done|]. repeat constructor. apply toString_regular.
Qed.

Lemma content_path_eq this id :
  path.join [contentPath this; toString id; "content"; "content.json"]
  = FPath (root this ++ [toString id; "content"; "content.json"]) false.
Proof.
  apply join_regular; [done|]. repeat constructor. apply toString_regular.
Qed.

(** Joining with a caller-supplied relative path resolves it segment by
    segment on top of what precedes it. *)
Lemma join_relative_segs this l filename :
  Forall (fun seg => regular seg = true) l ->
  segs (path.join (contentPath this :: l ++ [filename]))
  = rev (path.resolve_onto (rev (root this ++ l)) (split_slash filename)).
Proof.
  intros Hl. rewrite join_segs. simpl. rewrite flat_map_app. simpl.
  rewrite app_nil_r, flat_map_split_regular by done.
  rewrite resolve_root_app, resolve_onto_app, (resolve_onto_regular _ l) by done.
  by rewrite rev_app_distr.
Qed.

Lemma join_relative_slash this l filename :
  l <> [] -> Forall (fun seg => regular seg = true) l ->
  slash (path.join (contentPath this :: l ++ [filename]))
  = ends_with_slash filename
    && negb (bool_decide (segs (path.join (contentPath this :: l ++ [filename])) = [])).
Proof.
  intros Hne Hl. unfold path.join at 1. unfold path.normalize. cbn [slash segs].
  fold (path.normalize (join_with "/" (List.filter nonempty (contentPath this :: l ++ [filename])))).
  fold (path.join (contentPath this :: l ++ [filename])).
  f_equal.
  change (contentPath this :: l ++ [filename]) with ((contentPath this :: l) ++ [filename]).
  rewrite List.filter_app. destruct filename as [|c f].
  - simpl List.filter at 2. rewrite app_nil_r.
    destruct (exists_last Hne) as (l' & p & ->).
    apply Forall_app in Hl as [Hl' Hp]. inversion Hp as [|? ? Hp' _]; subst.
    change (contentPath this :: l' ++ [p]) with ((contentPath this :: l') ++ [p]).
    by apply ends_with_slash_joined.
  - by rewrite <- List.filter_app, filter_nonempty_snoc, ends_with_slash_join.
Qed.

(** ** Random ids *)

Lemma value_unit r : (0 <= value r)%Q /\ (value r < 1)%Q.
Proof.
  destruct r as [m s Hb]. unfold value. simpl.
  apply N.ltb_lt in Hb.
  assert (0 < 2 ^ Z.of_N s)%Z as Hpos by (apply Z.pow_pos_nonneg; lia).
  assert (Z.of_N m < 2 ^ Z.of_N s)%Z as Hlt.
  { apply N2Z.inj_lt in Hb. rewrite N2Z.inj_pow in Hb. exact Hb. }
  split.
  - apply Qle_shift_div_l; [unfold Qlt; simpl; lia|].
    unfold Qle. simpl. lia.
  - apply Qlt_shift_div_r; [unfold Qlt; simpl; lia|].
    unfold Qlt. simpl. lia.
Qed.

Lemma getRandomInt_range (lo hi : Z) r :
  (lo <= hi)%Z ->
  (lo <= getRandomInt (inject_Z lo) (inject_Z hi) r <= hi)%Z.
Proof.
  intros Hle. unfold getRandomInt, Math_ceil, Math_floor.
  rewrite Qceiling_Z, Qfloor_Z.
  destruct (value_unit r) as [H0 H1].
  set (span := (hi - lo + 1)%Z). assert (span = hi - lo + 1)%Z as Hdef by done.
  assert (0 < span)%Z as Hspan by lia.
  assert (0 <= inject_Z span)%Q as Hspan' by (unfold Qle; simpl; lia).
  assert (0 <= Qfloor (value r * inject_Z span))%Z as Hlow.
  { rewrite <- (Qfloor_Z 0). apply Qfloor_resp_le.
    by apply Qmult_le_0_compat. }
  assert (Qfloor (value r * inject_Z span) < span)%Z as Hhigh.
  { rewrite Zlt_Qlt. eapply Qle_lt_trans; [apply Qfloor_le|].
    rewrite <- (Qmult_1_l (inject_Z span)) at 2.
    apply Qmult_lt_compat_r; [|done]. unfold Qlt. simpl. lia. }
  clearbody span.
  lia.
Qed.

Lemma candidate_range w k : (1 <= candidate w k <= 2 ^ 32)%Z.
Proof. unfold candidate. by apply (getRandomInt_range 1 (2 ^ 32)). Qed.

(** ** createContentId *)

Lemma advance_S n w :
  {| tree := tree (advance n w); pending := pending (advance n w);
     entropy := entropy (advance n w); drawn := S (drawn (advance n w)) |}
  = advance (S n) w.
Proof. unfold advance. simpl. f_equal. lia. Qed.

Lemma advance_0 w : advance 0 w = w.
Proof. destruct w. unfold advance. simpl. f_equal. lia. Qed.

(** One round of the loop, started after [n] draws with the counter at
    [counter]: the candidate is drawn and probed. *)
Lemma createContentId_loop_step this fuel counter n w :
  createContentId_loop this fuel counter (advance n w)
  = if taken this w (candidate w n) && bool_decide (counter + 1 < 5)
    then match fuel with
         | O => (Ok None, advance (S n) w)
         | S fuel' => createContentId_loop this fuel' (counter + 1) (advance (S n) w)
         end
    else (Ok (Some (candidate w n, taken this w (candidate w n))), advance (S n) w).
Proof.
  destruct fuel; unfold createContentId_loop; fold createContentId_loop;
    unfold bind, Math_random, fsExtra.pathExists, ret; rewrite advance_S;
    change (entropy (advance n w) (drawn (advance n w))) with (entropy w (drawn w + n));
    fold (candidate w n); fold (subdirectory this (candidate w n));
    change (tree (advance (S n) w)) with (tree w);
    fold (taken this w (candidate w n));
    by destruct (taken this w (candidate w n) && bool_decide (counter + 1 < 5)).
Qed.

(** With at least four further rounds allowed the loop runs to its end. *)
Lemma createContentId_loop_total this fuel counter n w :
  4 <= counter + fuel ->
  exists id ex m, createContentId_loop this fuel counter (advance n w)
                  = (Ok (Some (id, ex)), advance m w).
Proof.
  revert counter n. induction fuel as [|fuel IH]; intros counter n Hfuel;
    rewrite createContentId_loop_step.
  - rewrite (bool_decide_eq_false_2 (counter + 1 < 5)) by lia.
    rewrite andb_false_r. eauto.
  - destruct (taken this w (candidate w n) && bool_decide (counter + 1 < 5)); [|eauto].
    apply IH. lia.
Qed.
Lemma taken_advance this n w id : taken this (advance n w) id = taken this w id.
Proof. done. Qed.




(** ** Permissions *)

(** C9: for every content id and every user, [getUserPermissions]
    resolves to the full permission set (View, Edit, Delete, Download and
    Embed), whatever id and user are supplied, and leaves the world as it
    was. *)
Theorem getUserPermissions_full (contentId : ContentId) (user : IUser) (w : World) :
  exists granted : list Permission,
    getUserPermissions contentId user w = (Ok granted, w) /\
    (forall p : Permission, p ∈ granted) /\
    (forall p, p ∈ granted <-> p ∈ [View; Edit; Delete; Download; Embed]) /\
    (forall contentId' user', getUserPermissions contentId' user' w = (Ok granted, w)).
Proof.
  exists [Delete; Download; Edit; Embed; View]. split_and!; try done.
  - intros []; apply list_elem_of_In; simpl; tauto.
  - intros p. rewrite !list_elem_of_In. simpl. tauto.
Qed.

(** ** Calls into the file system *)

Lemma syscall_injected {A} (run : Tree -> Result A * Tree) w e :
  head (pending w) = Some (Some e) ->
  syscall run w = (Err e, with_pending (tail (pending w)) w).
Proof. unfold syscall. by intros ->. Qed.

Lemma syscall_runs {A} (run : Tree -> Result A * Tree) w :
  (forall e, head (pending w) <> Some (Some e)) ->
  syscall run w
  = ((run (tree w)).1, with_tree (run (tree w)).2 (with_pending (tail (pending w)) w)).
Proof.
  unfold syscall. intros Hno. destruct (run (tree w)) as [r t].
  destruct (head (pending w)) as [[e|]|]; [by destruct (Hno e)|done..].
Qed.

Lemma taken_stat this w id :
  taken this w id = bool_decide (is_Some (fsExtra.stat (tree w) (subdirectory this id))).
Proof. done. Qed.

(** ** addContentFile on a missing id *)

(** C6: when the subdirectory of [id] does not exist, [addContentFile]
    fails with the error "Cannot add file ... Content with this id does
    not exist." and writes nothing: the world (the file tree and the
    calls made into the file system) is exactly what it was. *)
Theorem addContentFile_missing
    (this : FileContentStorage) (id : ContentId) (filename : string)
    (stream : Stream) (user : IUser) (w : World) :
  contentExists this id w = (Ok false, w) ->
  addContentFile this id filename stream user w
  = (Err (new_Error ("Cannot add file " +:+ filename +:+ " to content with id "
                     +:+ toString id +:+ ": Content with this id does not exist.")),
     w).
Proof.
  unfold contentExists, addContentFile, bind. intros ->. done.
Qed.

Lemma addContentFile_missing_witness :
  contentExists demo_store 42%Z empty_world = (Ok false, empty_world) /\
  addContentFile demo_store 42%Z "a.png" (MkStream "x" None) demo_user empty_world
  = (Err (new_Error "Cannot add file a.png to content with id 42: Content with this id does not exist."),
     empty_world).
Proof.
  split; [reflexivity|].
  apply (addContentFile_missing demo_store 42%Z). reflexivity.
Defined.

(** ** mkdirs *)

Lemma mkdirs_lookup above below t r t' l :
  fsExtra.mkdirs above below t = (r, t') ->
  t' !! l = t !! l
  \/ (t !! l = None /\ t' !! l = Some Dir
      /\ exists pre, pre <> [] /\ pre `prefix_of` below /\ l = above ++ pre).
Proof.
  revert above t. induction below as [|s below IH]; intros above t H; simpl in H.
  - inversion H; subst. by left.
  - assert (forall t0, fsExtra.mkdirs (above ++ [s]) below t0 = (r, t') ->
            t' !! l = t0 !! l
            \/ (t0 !! l = None /\ t' !! l = Some Dir
                /\ exists pre, pre <> [] /\ pre `prefix_of` (s :: below) /\ l = above ++ pre))
      as Hrec.
    { intros t0 H0. destruct (IH _ _ H0) as [?|(? & ? & pre & Hpre & Hpf & ->)]; [by left|].
      right. split_and!; try done. exists (s :: pre). split_and!; try done.
      - by apply prefix_cons.
      - by rewrite <- app_assoc. }
    destruct (t !! (above ++ [s])) as [[d|]|] eqn:E.
    + inversion H; subst. by left.
    + by apply Hrec.
    + destruct (Hrec _ H) as [Hl|(Hl & ? & ?)].
      * destruct (decide (l = above ++ [s])) as [->|Hne].
        -- right. rewrite lookup_insert_eq in Hl. split_and!; try done.
           exists [s]. split_and!; try done. apply prefix_cons, prefix_nil.
        -- left. by rewrite lookup_insert_ne in Hl.
      * destruct (decide (l = above ++ [s])) as [->|Hne].
        -- by rewrite lookup_insert_eq in Hl.
        -- right. by rewrite lookup_insert_ne in Hl.
Qed.

Lemma mkdirs_preserves above below t r t' l n :
  fsExtra.mkdirs above below t = (r, t') -> t !! l = Some n -> t' !! l = Some n.
Proof.
  intros H Hl. destruct (mkdirs_lookup _ _ _ _ _ l H) as [->|(? & _)]; congruence.
Qed.

Lemma mkdirs_ok above below t t' pre :
  fsExtra.mkdirs above below t = (Ok tt, t') ->
  pre <> [] -> pre `prefix_of` below -> t' !! (above ++ pre) = Some Dir.
Proof.
  revert above t pre. induction below as [|s below IH]; intros above t pre H Hne Hpf.
  - apply prefix_nil_inv in Hpf. done.
  - destruct pre as [|s' pre]; [done|].
    apply prefix_cons_inv_1 in Hpf as Hs. subst s'.
    apply prefix_cons_inv_2 in Hpf.
    simpl in H.
    assert (forall t0, t0 !! (above ++ [s]) = Some Dir ->
            fsExtra.mkdirs (above ++ [s]) below t0 = (Ok tt, t') ->
            t' !! (above ++ s :: pre) = Some Dir) as Hrec.
    { intros t0 Hhere H0. destruct pre as [|s'' pre].
      - by apply (mkdirs_preserves _ _ _ _ _ _ _ H0).
      - change (above ++ s :: s'' :: pre) with (above ++ [s] ++ s'' :: pre).
        rewrite app_assoc. by apply (IH _ t0). }
    destruct (t !! (above ++ [s])) as [[d|]|] eqn:E.
    + inversion H.
    + by apply (Hrec t).
    + apply (Hrec (<[above ++ [s] := Dir]> t)); [apply lookup_insert_eq|done].
Qed.

(** Nothing changes when the directories are all there. *)
Lemma mkdirs_present above below t :
  (forall pre, pre <> [] -> pre `prefix_of` below -> t !! (above ++ pre) = Some Dir) ->
  fsExtra.mkdirs above below t = (Ok tt, t).
Proof.
  revert above. induction below as [|s below IH]; intros above Hall; [done|].
  simpl. rewrite (Hall [s]); [|done|apply prefix_cons, prefix_nil].
  apply IH. intros pre Hne Hpf. rewrite <- app_assoc. apply Hall; [done|].
  by apply prefix_cons.
Qed.

(** [mkdirs] succeeds when no regular file is in the way. *)
Lemma mkdirs_succeeds above below t :
  (forall pre d, pre <> [] -> pre `prefix_of` below -> t !! (above ++ pre) <> Some (File d)) ->
  exists t', fsExtra.mkdirs above below t = (Ok tt, t').
Proof.
  revert above t. induction below as [|s below IH]; intros above t Hall; [by eexists|].
  simpl.
  assert (forall t0, (forall l, t0 !! l = t !! l \/ t0 !! l = Some Dir) ->
          exists t', fsExtra.mkdirs (above ++ [s]) below t0 = (Ok tt, t')) as Hrec.
  { intros t0 Ht0. apply IH. intros pre d Hne Hpf.
    destruct (Ht0 ((above ++ [s]) ++ pre)) as [->| ->]; [|done].
    rewrite <- app_assoc. apply Hall; [done|]. by apply prefix_cons. }
  destruct (t !! (above ++ [s])) as [[d|]|] eqn:E.
  - destruct (Hall [s] d); [done|apply prefix_cons, prefix_nil|done].
  - apply Hrec. by left.
  - apply Hrec. intros l. destruct (decide (l = above ++ [s])) as [->|Hne].
    + right. apply lookup_insert_eq.
    + left. by apply lookup_insert_ne.
Qed.

(** When the directories above the last segment are all there, only the
    last one is looked at. *)
Lemma mkdirs_last above below s t :
  (forall pre, pre <> [] -> pre `prefix_of` below -> t !! (above ++ pre) = Some Dir) ->
  fsExtra.mkdirs above (below ++ [s]) t = fsExtra.mkdirs (above ++ below) [s] t.
Proof.
  revert above. induction below as [|s' below IH]; intros above Hall.
  - by rewrite app_nil_r.
  - simpl. rewrite (Hall [s']); [|done|apply prefix_cons, prefix_nil].
    rewrite IH.
    + by rewrite <- app_assoc.
    + intros pre Hne Hpf. rewrite <- app_assoc. apply Hall; [done|]. by apply prefix_cons.
Qed.

(** ** Well-formed trees *)

Lemma wf_parent t l s n :
  well_formed t -> t !! (l ++ [s]) = Some n -> fsExtra.node_at t l = Some Dir.
Proof.
  intros Hwf Hl. specialize (Hwf _ _ Hl). simpl in Hwf.
  by rewrite removelast_last in Hwf.
Qed.

Lemma node_at_lookup t l n : l <> [] -> fsExtra.node_at t l = Some n <-> t !! l = Some n.
Proof. by destruct l. Qed.

Lemma node_at_snoc t l s : fsExtra.node_at t (l ++ [s]) = t !! (l ++ [s]).
Proof. by destruct l. Qed.

Lemma wf_ancestor t l k n :
  well_formed t -> k <> [] -> t !! (l ++ k) = Some n -> fsExtra.node_at t l = Some Dir.
Proof.
  intros Hwf. revert n. induction k as [|s k IH] using rev_ind; intros n Hne Hl; [done|].
  rewrite app_assoc in Hl. apply (wf_parent _ _ _ _ Hwf) in Hl.
  destruct k as [|s' k]; [by rewrite app_nil_r in Hl|].
  apply (IH Dir); [done|]. apply node_at_lookup in Hl; [done|]. by destruct l.
Qed.

Lemma wf_empty : well_formed ∅.
Proof. apply map_Forall_empty. Qed.

(** ** Calls into the file system, continued *)

Lemma fault_free_head n w e : fault_free (S n) w -> head (pending w) <> Some (Some e).
Proof.
  unfold fault_free. destruct (pending w) as [|slot later]; [done|].
  simpl. intros H. inversion H; subst. done.
Qed.

Lemma fault_free_tail n w t :
  fault_free (S n) w -> fault_free n (with_tree t (with_pending (tail (pending w)) w)).
Proof.
  unfold fault_free. simpl. destruct (pending w) as [|slot later]; simpl.
  - intros _. by rewrite take_nil.
  - intros H. by inversion H.
Qed.

Lemma syscall_fault_free {A} (run : Tree -> Result A * Tree) n w :
  fault_free (S n) w ->
  exists w', syscall run w = ((run (tree w)).1, w')
             /\ tree w' = (run (tree w)).2 /\ fault_free n w'
             /\ entropy w' = entropy w /\ drawn w' = drawn w.
Proof.
  intros Hff. eexists. split_and!.
  - apply syscall_runs. intros e. by apply (fault_free_head n).
  - done.
  - by apply fault_free_tail.
  - done.
  - done.
Qed.

Lemma syscall_ok {A} (run : Tree -> Result A * Tree) w a w' :
  syscall run w = (Ok a, w') -> run (tree w) = (Ok a, tree w').
Proof.
  unfold syscall. destruct (head (pending w)) as [[e|]|]; [done|..];
    destruct (run (tree w)) as [r t]; by intros [= -> <-].
Qed.

Lemma syscall_tree {A} (run : Tree -> Result A * Tree) w r w' :
  syscall run w = (r, w') -> tree w' = tree w \/ tree w' = (run (tree w)).2.
Proof.
  unfold syscall. destruct (head (pending w)) as [[e|]|];
    [intros [= <- <-]; by left|..];
    destruct (run (tree w)) as [r0 t]; intros [= <- <-]; by right.
Qed.

Lemma bind_ok {A B} (m : IO A) (k : A -> IO B) w b w2 :
  bind m k w = (Ok b, w2) -> exists a w1, m w = (Ok a, w1) /\ k a w1 = (Ok b, w2).
Proof. unfold bind. destruct (m w) as [[a|e] w1]; [eauto|done]. Qed.

(** ** remove *)

Lemma remove_tree_below p t l :
  segs p `prefix_of` l -> (fsExtra.remove_tree p t).2 !! l = None.
Proof.
  intros Hpf. simpl. apply map_lookup_filter_None. right. intros n _ Hn. by apply Hn.
Qed.

Lemma remove_tree_elsewhere p t l :
  ~ segs p `prefix_of` l -> (fsExtra.remove_tree p t).2 !! l = t !! l.
Proof.
  intros Hpf. simpl. destruct (t !! l) as [n|] eqn:E.
  - by apply map_lookup_filter_Some.
  - apply map_lookup_filter_None. by left.
Qed.

Lemma remove_ok p w w' :
  fsExtra.remove p w = (Ok tt, w') -> tree w' = (fsExtra.remove_tree p (tree w)).2.
Proof. intros H. apply syscall_ok in H. by inversion H. Qed.


(** ** createContent *)

Lemma ensureDir_ok p w w' :
  fsExtra.ensureDir p w = (Ok tt, w') ->
  fsExtra.mkdirs [] (segs p) (tree w) = (Ok tt, tree w').
Proof. apply syscall_ok. Qed.

Lemma writeFile_ok p data t t' :
  fsExtra.writeFile p data t = (Ok tt, t') ->
  fsExtra.open_for_writing t p = None /\ t' = <[segs p := File data]> t.
Proof.
  unfold fsExtra.writeFile. destruct (fsExtra.open_for_writing t p); [done|].
  by intros [= <-].
Qed.

Lemma writeJSON_ok p obj w w' :
  fsExtra.writeJSON p obj w = (Ok tt, w') ->
  exists text, obj = Json text
               /\ fsExtra.open_for_writing (tree w) p = None
               /\ tree w' = <[segs p := File (text +:+ newline)]> (tree w).
Proof.
  destruct obj as [text|why]; [|done]. simpl. intros H%syscall_ok.
  apply writeFile_ok in H as [? ?]. eauto.
Qed.

Ltac distinct_keys :=
  let E := fresh in
  intros E; apply app_inv_head in E; discriminate E.

Lemma createContent_try_ok this metadata content id w w1 :
  createContent_try this metadata content id w = (Ok tt, w1) ->
  exists mt ct,
    metadata = Json mt /\ content = Json ct /\
    tree w1 !! (root this ++ [toString id]) = Some Dir /\
    tree w1 !! (root this ++ [toString id; "content"]) = Some Dir /\
    tree w1 !! (root this ++ [toString id; "h5p.json"]) = Some (File (mt +:+ newline)) /\
    tree w1 !! (root this ++ [toString id; "content"; "content.json"])
    = Some (File (ct +:+ newline)).
Proof.
  unfold createContent_try.
  fold (subdirectory this id). fold (file_area this id).
  rewrite subdirectory_eq, file_area_eq, metadata_path_eq, content_path_eq.
  intros H.
  apply bind_ok in H as ([] & wa & Ha & H).
  apply bind_ok in H as ([] & wb & Hb & H).
  apply bind_ok in H as ([] & wc & Hc & Hd).
  apply ensureDir_ok in Ha, Hb. simpl in Ha, Hb.
  apply writeJSON_ok in Hc as (mt & -> & _ & Hc).
  apply writeJSON_ok in Hd as (ct & -> & _ & Hd).
  simpl in Hc, Hd.
  assert (tree wa !! (root this ++ [toString id]) = Some Dir) as Ka.
  { by apply (mkdirs_ok [] _ _ _ _ Ha); [by destruct (root this)|]. }
  assert (tree wb !! (root this ++ [toString id]) = Some Dir) as Kb.
  { by apply (mkdirs_preserves _ _ _ _ _ _ _ Hb). }
  assert (tree wb !! (root this ++ [toString id; "content"]) = Some Dir) as Kb'.
  { by apply (mkdirs_ok [] _ _ _ _ Hb); [by destruct (root this)|]. }
  exists mt, ct. rewrite Hd, Hc. split_and!; try done.
  - rewrite !lookup_insert_ne by distinct_keys. done.
  - rewrite !lookup_insert_ne by distinct_keys. done.
  - rewrite lookup_insert_ne by distinct_keys. apply lookup_insert_eq.
  - apply lookup_insert_eq.
Qed.

Lemma createContent_outcome this metadata content user oid w id w0 :
  assign_id this oid w = (Ok id, w0) ->
  createContent this metadata content user oid w
  = match createContent_try this metadata content id w0 with
    | (Ok _, w1) => (Ok id, w1)
    | (Err cause, w1) =>
        match fsExtra.remove (subdirectory this id) w1 with
        | (Ok _, w2) =>
            (Err (new_Error ("Could not create content: " +:+ message cause)), w2)
        | (Err e, w2) => (Err e, w2)
        end
    end.
Proof.
  intros Hid. unfold createContent. fold (assign_id this oid).
  unfold bind at 1. rewrite Hid.
  unfold bind at 1, try_catch, createContent_catch.
  destruct (createContent_try this metadata content id w0) as [[[]|cause] w1]; [done|].
  unfold bind. fold (subdirectory this id).
  by destruct (fsExtra.remove (subdirectory this id) w1) as [[[]|e] w2].
Qed.

Lemma createContent_unassigned this metadata content user oid w e w0 :
  assign_id this oid w = (Err e, w0) ->
  createContent this metadata content user oid w = (Err e, w0).
Proof.
  intros Hid. unfold createContent. fold (assign_id this oid).
  unfold bind at 1. by rewrite Hid.
Qed.

Lemma stat_plain t l : l <> [] -> fsExtra.stat t (FPath l false) = t !! l.
Proof.
  intros Hne. unfold fsExtra.stat. simpl. destruct l; [done|].
  simpl. by destruct (t !! (s :: l)) as [[|]|].
Qed.

Lemma subdirectory_stat this id t :
  fsExtra.stat t (subdirectory this id) = t !! (root this ++ [toString id]).
Proof. rewrite subdirectory_eq. apply stat_plain. by destruct (root this). Qed.







(** ** contentExists, createContent and deleteContent *)

Lemma createContent_returns this metadata content user oid w i w' :
  createContent this metadata content user oid w = (Ok i, w') ->
  exists w0, assign_id this oid w = (Ok i, w0)
             /\ createContent_try this metadata content i w0 = (Ok tt, w').
Proof.
  intros H. destruct (assign_id this oid w) as [[id|e] w0] eqn:Hid.
  - rewrite (createContent_outcome _ _ _ _ _ _ _ _ Hid) in H.
    destruct (createContent_try this metadata content id w0) as [[[]|cause] w1] eqn:Htry.
    + inversion H; subst. eauto.
    + by destruct (fsExtra.remove (subdirectory this id) w1) as [[[]|?] ?].
  - by rewrite (createContent_unassigned _ _ _ _ _ _ _ _ Hid) in H.
Qed.

Lemma contentExists_eq this id w :
  contentExists this id w = (Ok (taken this w id), w).
Proof. done. Qed.

Lemma taken_lookup this id w :
  taken this w id = bool_decide (is_Some (tree w !! (root this ++ [toString id]))).
Proof. unfold taken. by rewrite subdirectory_stat. Qed.

(** C8: [contentExists(i)] is true in the world [createContent] returns
    in, for the id [i] it returns; it is false in the world
    [deleteContent(i)] returns in, which it only does for an id that
    existed; on an id that does not exist [deleteContent] fails with the
    error "Cannot delete content with id ...: It does not exist." and
    changes nothing; and on an existing id it does return unless the
    removal is hit by an injected fault. *)
Theorem contentExists_lifecycle (this : FileContentStorage) (i : ContentId) :
  (forall metadata content user oid w w',
     createContent this metadata content user oid w = (Ok i, w') ->
     contentExists this i w' = (Ok true, w')) /\
  (forall user w w',
     deleteContent this i user w = (Ok tt, w') ->
     contentExists this i w = (Ok true, w) /\ contentExists this i w' = (Ok false, w')) /\
  (forall user w,
     contentExists this i w = (Ok false, w) ->
     deleteContent this i user w
     = (Err (new_Error ("Cannot delete content with id " +:+ toString i
                        +:+ ": It does not exist.")), w)) /\
  (forall user w,
     contentExists this i w = (Ok true, w) -> fault_free 1 w ->
     exists w', deleteContent this i user w = (Ok tt, w')).
Proof.
  split_and!.
  - intros metadata content user oid w w' H.
    apply createContent_returns in H as (w0 & _ & Htry).
    apply createContent_try_ok in Htry as (mt & ct & _ & _ & K & _).
    by rewrite contentExists_eq, taken_lookup, K.
  - intros user w w'. unfold deleteContent, bind.
    fold (contentExists this i). rewrite !contentExists_eq.
    destruct (taken this w i) eqn:T; [|done]. cbn [negb]. intros Hrm. split; [done|].
    fold (subdirectory this i) in Hrm. apply remove_ok in Hrm.
    by rewrite taken_lookup, Hrm, remove_tree_below by (by rewrite subdirectory_eq).
  - intros user w. unfold deleteContent, bind. fold (contentExists this i).
    by intros ->.
  - intros user w Hex Hff. unfold deleteContent, bind. fold (contentExists this i).
    rewrite Hex. cbn [negb]. fold (subdirectory this i).
    destruct (syscall_fault_free (fsExtra.remove_tree (subdirectory this i)) 0 w Hff)
      as (w' & Hrun & _).
    exists w'. apply Hrun.
Qed.

Lemma contentExists_lifecycle_witness :
  let w1 := (createContent demo_store (Json "{}") (Json "{}") demo_user (Some 42%Z)
               empty_world).2 in
  let w2 := (deleteContent demo_store 42%Z None w1).2 in
  createContent demo_store (Json "{}") (Json "{}") demo_user (Some 42%Z) empty_world
  = (Ok 42%Z, w1)
  /\ contentExists demo_store 42%Z w1 = (Ok true, w1)
  /\ deleteContent demo_store 42%Z None w1 = (Ok tt, w2)
  /\ contentExists demo_store 42%Z w2 = (Ok false, w2).
Proof.
  pose proof (contentExists_lifecycle demo_store 42%Z) as (Hcreate & Hdelete & _ & _).
  assert (createContent demo_store (Json "{}") (Json "{}") demo_user (Some 42%Z) empty_world
          = (Ok 42%Z, (createContent demo_store (Json "{}") (Json "{}") demo_user
                         (Some 42%Z) empty_world).2)) as Hc by reflexivity.
  assert (deleteContent demo_store 42%Z None
            (createContent demo_store (Json "{}") (Json "{}") demo_user (Some 42%Z)
               empty_world).2
          = (Ok tt, (deleteContent demo_store 42%Z None
                       (createContent demo_store (Json "{}") (Json "{}") demo_user
                          (Some 42%Z) empty_world).2).2)) as Hd by reflexivity.
  split_and!.
  - exact Hc.
  - exact (Hcreate _ _ _ _ _ _ Hc).
  - exact Hd.
  - exact (proj2 (Hdelete _ _ _ Hd)).
Defined.

(** ** createContent on an id that exists *)

Lemma bind_run {A B} (m : IO A) (k : A -> IO B) w a w1 :
  m w = (Ok a, w1) -> bind m k w = k a w1.
Proof. unfold bind. by intros ->. Qed.

Lemma wf_prefixes_present t l :
  well_formed t -> t !! l = Some Dir ->
  forall pre, pre <> [] -> pre `prefix_of` l -> t !! ([] ++ pre) = Some Dir.
Proof.
  intros Hwf Hl pre Hne [k ->]. simpl. destruct k as [|s k].
  - by rewrite app_nil_r in Hl.
  - apply (wf_ancestor t pre (s :: k) Dir Hwf) in Hl; [|done].
    by apply node_at_lookup in Hl.
Qed.

Lemma is_file_false o : is_file o = false -> forall d, o <> Some (File d).
Proof. by destruct o as [[|]|]. Qed.

Lemma is_dir_false o : is_dir o = false -> o <> Some Dir.
Proof. by destruct o as [[|]|]. Qed.

Lemma removelast_below {A} (l k : list A) s : removelast (l ++ k ++ [s]) = l ++ k.
Proof. by rewrite app_assoc, removelast_last. Qed.

(** [ensureDir] of a child of an existing directory. *)
Lemma mkdirs_child t l s :
  well_formed t -> l <> [] -> t !! l = Some Dir -> is_file (t !! (l ++ [s])) = false ->
  fsExtra.mkdirs [] (l ++ [s]) t = (Ok tt, <[l ++ [s] := Dir]> t).
Proof.
  intros Hwf Hne Hl Hs. rewrite mkdirs_last by (by apply wf_prefixes_present).
  simpl. destruct (t !! (l ++ [s])) as [[d|]|] eqn:E; [done| |done].
  by rewrite insert_id.
Qed.

Lemma createContent_try_existing this mt ct id w :
  well_formed (tree w) ->
  fsExtra.stat (tree w) (subdirectory this id) = Some Dir ->
  layout_clear this id (tree w) ->
  fault_free 4 w ->
  exists w',
    createContent_try this (Json mt) (Json ct) id w = (Ok tt, w') /\
    tree w'
    = <[root this ++ [toString id; "content"; "content.json"] := File (ct +:+ newline)]>
        (<[root this ++ [toString id; "h5p.json"] := File (mt +:+ newline)]>
           (<[root this ++ [toString id; "content"] := Dir]> (tree w))).
Proof.
  intros Hwf Hdir (Harea & Hmeta & Hdoc) Hff.
  unfold createContent_try. fold (subdirectory this id). fold (file_area this id).
  rewrite subdirectory_stat in Hdir.
  rewrite file_area_eq, stat_plain in Harea by (by destruct (root this)).
  rewrite metadata_path_eq, stat_plain in Hmeta by (by destruct (root this)).
  rewrite content_path_eq, stat_plain in Hdoc by (by destruct (root this)).
  rewrite subdirectory_eq, file_area_eq, metadata_path_eq, content_path_eq.
  assert (root this ++ [toString id] <> []) as Hne by (by destruct (root this)).
  (* the subdirectory is there *)
  destruct (syscall_fault_free (fsExtra.mkdirs [] (root this ++ [toString id])) 3 w Hff)
    as (wa & Ha & Ta & Hffa & _).
  rewrite (mkdirs_present [] _ (tree w)) in Ha, Ta by (by apply wf_prefixes_present).
  cbn [fst snd] in Ha, Ta.
  unfold fsExtra.ensureDir at 1. simpl segs. rewrite (bind_run _ _ _ _ _ Ha).
  (* the file area is created or found *)
  destruct (syscall_fault_free
              (fsExtra.mkdirs [] (root this ++ [toString id; "content"])) 2 wa Hffa)
    as (wb & Hb & Tb & Hffb & _).
  change (root this ++ [toString id; "content"])
    with (root this ++ [toString id] ++ ["content"]) in Hb, Tb, Harea.
  rewrite app_assoc in Hb, Tb, Harea.
  rewrite Ta in Hb, Tb.
  rewrite (mkdirs_child (tree w)) in Hb, Tb by done.
  rewrite <- app_assoc in Hb, Tb, Harea. cbn [fst snd] in Hb, Tb.
  unfold fsExtra.ensureDir at 1. simpl segs. rewrite (bind_run _ _ _ _ _ Hb).
  (* the metadata document *)
  set (area := root this ++ [toString id] ++ ["content"]) in *.
  set (meta := root this ++ [toString id; "h5p.json"]) in *.
  set (doc := root this ++ [toString id; "content"; "content.json"]) in *.
  assert (meta <> area) as Hma by (unfold meta, area; distinct_keys).
  assert (doc <> area) as Hda by (unfold doc, area; distinct_keys).
  assert (doc <> meta) as Hdm by (unfold doc, meta; distinct_keys).
  assert (area <> root this ++ [toString id]) as Has by (unfold area; distinct_keys).
  assert (area <> meta) as Ham by done.
  assert (area <> doc) as Had by done.
  assert (meta <> doc) as Hmd by done.
  assert (removelast meta = root this ++ [toString id]) as Pm
    by apply (removelast_below (root this) [toString id]).
  assert (removelast doc = area) as Pd
    by apply (removelast_below (root this) [toString id; "content"]).
  assert (meta <> []) as Hmne by (unfold meta; by destruct (root this)).
  assert (doc <> []) as Hdne by (unfold doc; by destruct (root this)).
  assert (area <> []) as Hane by (unfold area; by destruct (root this)).
  assert (forall t l, l <> [] -> fsExtra.node_at t l = t !! l) as Hnode
    by (intros t [|? ?]; done).
  destruct (syscall_fault_free
              (fsExtra.writeFile (FPath meta false) (mt +:+ newline)) 1 wb Hffb)
    as (wc & Hc & Tc & Hffc & _).
  assert (fsExtra.open_for_writing (tree wb) (FPath meta false) = None) as Om.
  { unfold fsExtra.open_for_writing. simpl segs. simpl slash.
    rewrite Pm, (Hnode _ _ Hne), (Hnode _ _ Hmne), Tb.
    rewrite (lookup_insert_ne _ area (root this ++ [toString id])) by done.
    rewrite Hdir. rewrite (lookup_insert_ne _ area meta) by done.
    by destruct (tree w !! meta) as [[|]|]. }
  unfold fsExtra.writeFile in Hc, Tc. rewrite Om in Hc, Tc. simpl in Hc, Tc.
  unfold fsExtra.writeJSON at 1. rewrite (bind_run _ _ _ _ _ Hc).
  (* the content document *)
  destruct (syscall_fault_free
              (fsExtra.writeFile (FPath doc false) (ct +:+ newline)) 0 wc Hffc)
    as (wd & Hd & Td & _).
  assert (fsExtra.open_for_writing (tree wc) (FPath doc false) = None) as Od.
  { unfold fsExtra.open_for_writing. simpl segs. simpl slash.
    rewrite Pd, (Hnode _ _ Hane), (Hnode _ _ Hdne), Tc, Tb.
    rewrite (lookup_insert_ne _ meta area) by done. rewrite lookup_insert_eq.
    rewrite (lookup_insert_ne _ meta doc), (lookup_insert_ne _ area doc) by done.
    by destruct (tree w !! doc) as [[|]|]. }
  unfold fsExtra.writeFile in Hd, Td. rewrite Od in Hd, Td. simpl in Hd, Td.
  exists wd. split; [exact Hd|]. by rewrite Td, Tc, Tb.
Qed.



(** ** Relative paths that do not climb *)

Lemma resolve_onto_no_climb below base l :
  climbs_from (length below) l = false ->
  exists k, path.resolve_onto (below ++ base) l = k ++ base.
Proof.
  revert below. induction l as [|seg l IH]; intros below H; [by exists below|].
  simpl in H. simpl. unfold path.step.
  destruct (String.eqb seg ""); [by apply IH|].
  destruct (String.eqb seg "."); [by apply IH|].
  destruct (String.eqb seg "..").
  - destruct below as [|x below]; [done|]. simpl in H. by apply IH.
  - by apply (IH (seg :: below)).
Qed.

Lemma climbs_from_no_dotdot depth l :
  existsb (String.eqb "..") l = false -> climbs_from depth l = false.
Proof.
  revert depth. induction l as [|seg l IH]; intros depth H; [done|].
  cbn [existsb] in H. apply orb_false_iff in H as [Hseg Hl]. cbn [climbs_from].
  rewrite String.eqb_sym in Hseg. rewrite Hseg.
  destruct (String.eqb seg ""); [by apply IH|].
  destruct (String.eqb seg "."); by apply IH.
Qed.

Lemma join_no_climb this l filename :
  Forall (fun seg => regular seg = true) l ->
  climbs filename = false ->
  exists rest, segs (path.join (contentPath this :: l ++ [filename])) = root this ++ l ++ rest.
Proof.
  intros Hl Hclimb. rewrite join_relative_segs by done.
  destruct (resolve_onto_no_climb [] (rev (root this ++ l)) (split_slash filename) Hclimb)
    as [k Hk].
  cbn [app] in Hk. rewrite Hk.
  exists (rev k). by rewrite rev_app_distr, rev_involutive, app_assoc.
Qed.


Lemma pipe_to_file_lookup s p t r t' l :
  fsExtra.pipe_to_file s p t = (r, t') -> l <> segs p -> t' !! l = t !! l.
Proof.
  unfold fsExtra.pipe_to_file. destruct (fsExtra.open_for_writing t p).
  - by intros [= _ <-].
  - intros H Hl. assert (t' = <[segs p := File (payload s)]> t) as ->
      by (destruct (failure s); by inversion H).
    by rewrite lookup_insert_ne.
Qed.





(** ** Attaching a file and streaming it back *)

Lemma pipe_to_file_ok s p t t' :
  fsExtra.pipe_to_file s p t = (Ok tt, t') ->
  fsExtra.open_for_writing t p = None /\ failure s = None
  /\ t' = <[segs p := File (payload s)]> t.
Proof.
  unfold fsExtra.pipe_to_file. destruct (fsExtra.open_for_writing t p); [done|].
  destruct (failure s); [done|]. by intros [= <-].
Qed.

Lemma open_for_writing_file t p :
  fsExtra.open_for_writing t p = None -> segs p <> [] /\ slash p = false.
Proof.
  unfold fsExtra.open_for_writing.
  destruct (fsExtra.node_at t (removelast (segs p))) as [[|]|]; [done| |done].
  destruct (segs p) as [|s l] eqn:E; [done|]. split; [done|].
  destruct (fsExtra.node_at t (s :: l)) as [[|]|]; [|done|]; by destruct (slash p).
Qed.

Lemma addContentFile_ok this id filename stream user w w' :
  addContentFile this id filename stream user w = (Ok tt, w') ->
  let fullPath := path.join [contentPath this; toString id; "content"; filename] in
  taken this w id = true /\ failure stream = None
  /\ segs fullPath <> [] /\ slash fullPath = false
  /\ tree w' !! segs fullPath = Some (File (payload stream)).
Proof.
  unfold addContentFile, bind. fold (contentExists this id). rewrite contentExists_eq.
  destruct (taken this w id); [|done]. cbn [negb].
  set (fullPath := path.join [contentPath this; toString id; "content"; filename]).
  destruct (fsExtra.ensureDir (path.dirname fullPath) w) as [[[]|e] wa]; [|done].
  intros Hpipe%syscall_ok. cbn zeta.
  apply pipe_to_file_ok in Hpipe as (Hopen & Hend & ->).
  apply open_for_writing_file in Hopen as [? ?].
  split_and!; try done. apply lookup_insert_eq.
Qed.

(** Prefixing the file name with the [content] directory names the same
    file from the id's subdirectory. *)
Lemma join_content_prefix this id filename :
  filename <> "" ->
  path.join [contentPath this; toString id; "content/" +:+ filename]
  = path.join [contentPath this; toString id; "content"; filename].
Proof.
  intros Hne.
  assert (segs (path.join [contentPath this; toString id; "content/" +:+ filename])
          = segs (path.join [contentPath this; toString id; "content"; filename])) as Hsegs.
  { rewrite !join_segs. cbn [flat_map].
    change ("content/" +:+ filename) with ("content" +:+ "/" +:+ filename).
    rewrite split_slash_app. by rewrite <- !app_assoc. }
  assert (slash (path.join [contentPath this; toString id; "content/" +:+ filename])
          = slash (path.join [contentPath this; toString id; "content"; filename])) as Hslash.
  { pose proof (join_relative_slash this [toString id] ("content/" +:+ filename)) as H1.
    pose proof (join_relative_slash this [toString id; "content"] filename) as H2.
    cbn [app] in H1, H2.
    rewrite H1, H2, Hsegs
      by first [done | repeat constructor; apply toString_regular].
    f_equal. apply (ends_with_slash_app "content/"). by destruct filename. }
  destruct (path.join [contentPath this; toString id; "content/" +:+ filename]),
           (path.join [contentPath this; toString id; "content"; filename]).
  simpl in *. by subst.
Qed.

(** C4, as the code has it: [getContentFileStream] reads from the id's
    subdirectory, not from its file area, so an attached file is streamed
    back under its name prefixed with the [content] directory.  In the
    scenario: [createContent] assigns the id 42 (drawn by [Math.random]),
    [getContentFiles(42)] is empty, [addContentFile(42, images/a.png, s)]
    copies the ten bytes of [s], [getContentFiles(42)] is then exactly
    [images/a.png], and the stream over [content/images/a.png] delivers
    exactly those ten bytes.  In general, whenever [addContentFile(id, p,
    s)] succeeds for a non-empty [p], consuming
    [getContentFileStream(id, content/p)] delivers exactly the bytes of
    [s]. *)
Theorem attach_then_stream :
  (let w1 := (createContent demo_store (Json "{title:x}") (Json "{body:y}") demo_user None
                lucky_world).2 in
   let w2 := (addContentFile demo_store 42%Z "images/a.png" ten_bytes demo_user w1).2 in
   createContent demo_store (Json "{title:x}") (Json "{body:y}") demo_user None lucky_world
   = (Ok 42%Z, w1)
   /\ getContentFiles demo_store 42%Z demo_user w1 = (Ok [], w1)
   /\ addContentFile demo_store 42%Z "images/a.png" ten_bytes demo_user w1 = (Ok tt, w2)
   /\ String.length (payload ten_bytes) = 10
   /\ getContentFiles demo_store 42%Z demo_user w2 = (Ok ["images/a.png"], w2)
   /\ fsExtra.consume (tree w2)
        (getContentFileStream demo_store 42%Z "content/images/a.png" demo_user)
      = Ok (payload ten_bytes))
  /\ forall (this : FileContentStorage) (id : ContentId) (p : string) (stream : Stream)
            (user : IUser) (w w' : World),
       p <> "" ->
       addContentFile this id p stream user w = (Ok tt, w') ->
       fsExtra.consume (tree w') (getContentFileStream this id ("content/" +:+ p) user)
       = Ok (payload stream).
Proof.
  split.
  - cbv zeta. split_and!; vm_compute; reflexivity.
  - intros this id p stream user w w' Hne Hadd.
    apply addContentFile_ok in Hadd as (_ & _ & Hsegs & Hslash & Hfile).
    unfold getContentFileStream, fsExtra.createReadStream, fsExtra.consume. cbn [source].
    rewrite join_content_prefix by done.
    unfold fsExtra.stat.
    destruct (segs (path.join [contentPath this; toString id; "content"; p])) as [|s l] eqn:E;
      [done|].
    cbn [fsExtra.node_at]. by rewrite Hfile, Hslash.
Qed.

Lemma attach_then_stream_witness :
  "images/a.png" <> ""
  /\ addContentFile demo_store 42%Z "images/a.png" ten_bytes demo_user created_world
     = (Ok tt, stored_world)
  /\ fsExtra.consume (tree stored_world)
       (getContentFileStream demo_store 42%Z ("content/" +:+ "images/a.png") demo_user)
     = Ok (payload ten_bytes).
Proof.
  assert ("images/a.png" <> "") as Hne by discriminate.
  assert (addContentFile demo_store 42%Z "images/a.png" ten_bytes demo_user created_world
          = (Ok tt, stored_world)) as Hadd by reflexivity.
  split_and!; [exact Hne|exact Hadd|].
  exact (proj2 attach_then_stream demo_store 42%Z "images/a.png" ten_bytes demo_user
           created_world stored_world Hne Hadd).
Defined.

(** C4 as stated fails: after the ten bytes are attached as
    [images/a.png], the stream [getContentFileStream(42, images/a.png)]
    looks for [/data/42/images/a.png], which does not exist, and ends
    with ENOENT instead of delivering the bytes. *)
Lemma stream_without_content_prefix :
  addContentFile demo_store 42%Z "images/a.png" ten_bytes demo_user created_world
  = (Ok tt, stored_world)
  /\ getContentFiles demo_store 42%Z demo_user stored_world
     = (Ok ["images/a.png"], stored_world)
  /\ source (getContentFileStream demo_store 42%Z "images/a.png" demo_user)
     = FPath ["data"; "42"; "images"; "a.png"] false
  /\ fsExtra.consume (tree stored_world)
       (getContentFileStream demo_store 42%Z "images/a.png" demo_user)
     = Err ENOENT.
Proof. split_and!; vm_compute; reflexivity. Qed.

(** ** Listing the attached files *)














(** C5 fails on the code for leaf files without a dot in their name:
    the method's own documentation says it "gets the filenames of files
    added to the content with addContentFile", yet after
    [addContentFile(42, LICENSE, s)] has stored the file in the file area
    next to [images/a.png], [getContentFiles(42)] lists [images/a.png]
    only. *)
Theorem getContentFiles_misses_name_without_dot :
  addContentFile demo_store 42%Z "LICENSE" licence demo_user stored_world
  = (Ok tt, licensed_world)
  /\ tree licensed_world !! (segs (file_area demo_store 42%Z) ++ ["LICENSE"])
     = Some (File "MIT")
  /\ fsExtra.consume (tree licensed_world)
       (getContentFileStream demo_store 42%Z "content/LICENSE" demo_user) = Ok "MIT"
  /\ getContentFiles demo_store 42%Z demo_user licensed_world
     = (Ok ["images/a.png"], licensed_world).
Proof. split_and!; vm_compute; reflexivity. Qed.

(** ** Well-formedness is an invariant of the store *)

Lemma removelast_ne {A} (l : list A) : l <> [] -> removelast l <> l.
Proof.
  intros Hne E. apply (f_equal length) in E.
  destruct (exists_last Hne) as (l' & x & ->).
  rewrite removelast_last, length_app in E. simpl in E. lia.
Qed.

Lemma node_at_insert_ne t l k n :
  l <> k -> fsExtra.node_at (<[l := n]> t) k = fsExtra.node_at t k.
Proof. intros Hne. destruct k; [done|]. simpl. by apply lookup_insert_ne. Qed.

Lemma insert_dir_wf t l :
  well_formed t -> l <> [] -> fsExtra.node_at t (removelast l) = Some Dir ->
  t !! l = None -> well_formed (<[l := Dir]> t).
Proof.
  intros Hwf Hne Hparent Hfree k n Hk. simpl.
  destruct (decide (k = l)) as [->|Hkl].
  - rewrite node_at_insert_ne; [done|]. intros E. by apply (removelast_ne l).
  - rewrite lookup_insert_ne in Hk by done. specialize (Hwf _ _ Hk). simpl in Hwf.
    destruct (decide (l = removelast k)) as [->|Hlp].
    + destruct (removelast k); [done|]. simpl in Hwf. congruence.
    + by rewrite node_at_insert_ne.
Qed.

Lemma insert_file_wf t l d :
  well_formed t -> l <> [] -> fsExtra.node_at t (removelast l) = Some Dir ->
  t !! l <> Some Dir -> well_formed (<[l := File d]> t).
Proof.
  intros Hwf Hne Hparent Hnodir k n Hk. simpl.
  destruct (decide (k = l)) as [->|Hkl].
  - rewrite node_at_insert_ne; [done|]. intros E. by apply (removelast_ne l).
  - rewrite lookup_insert_ne in Hk by done. specialize (Hwf _ _ Hk). simpl in Hwf.
    destruct (decide (l = removelast k)) as [->|Hlp].
    + destruct (removelast k); [done|]. simpl in Hwf. congruence.
    + by rewrite node_at_insert_ne.
Qed.

Lemma mkdirs_wf above below t r t' :
  well_formed t -> fsExtra.node_at t above = Some Dir ->
  fsExtra.mkdirs above below t = (r, t') -> well_formed t'.
Proof.
  revert above t. induction below as [|s below IH]; intros above t Hwf Habove H; simpl in H.
  - by inversion H; subst.
  - destruct (t !! (above ++ [s])) as [[d|]|] eqn:E.
    + by inversion H; subst.
    + apply (IH _ _ Hwf) in H; [done|]. by rewrite node_at_snoc.
    + apply IH in H; [done| |].
      * apply insert_dir_wf; try done; [by destruct above|].
        by rewrite removelast_last.
      * rewrite node_at_snoc. apply lookup_insert_eq.
Qed.

Lemma remove_tree_wf p t : well_formed t -> well_formed (fsExtra.remove_tree p t).2.
Proof.
  intros Hwf k n Hk. simpl in *.
  apply map_lookup_filter_Some in Hk as [Hk Hout]. simpl in Hout.
  specialize (Hwf _ _ Hk). simpl in Hwf.
  destruct (removelast k) as [|s l] eqn:E; [done|]. simpl in *.
  apply map_lookup_filter_Some. split; [done|]. simpl.
  intros Hpf. apply Hout. etrans; [exact Hpf|].
  rewrite <- E. destruct k as [|x k] using rev_ind; [done|].
  rewrite removelast_last. by apply prefix_app_r.
Qed.

Lemma writeFile_wf p data t r t' :
  well_formed t -> fsExtra.writeFile p data t = (r, t') -> well_formed t'.
Proof.
  intros Hwf. unfold fsExtra.writeFile.
  destruct (fsExtra.open_for_writing t p) as [e|] eqn:Hopen; [by intros [= _ <-]|].
  intros [= _ <-]. unfold fsExtra.open_for_writing in Hopen.
  destruct (fsExtra.node_at t (removelast (segs p))) as [[|]|] eqn:Hparent; [done| |done].
  destruct (segs p) as [|s l] eqn:E; [done|].
  apply insert_file_wf; try done. intros Hdir. simpl in Hopen. by rewrite Hdir in Hopen.
Qed.


Lemma syscall_wf {A} (run : Tree -> Result A * Tree) w r w' :
  (forall t r t', well_formed t -> run t = (r, t') -> well_formed t') ->
  well_formed (tree w) -> syscall run w = (r, w') -> well_formed (tree w').
Proof.
  intros Hrun Hwf H. destruct (syscall_tree _ _ _ _ H) as [->| ->]; [done|].
  eapply Hrun; [done|apply surjective_pairing].
Qed.

Lemma bind_wf {A B} (m : IO A) (k : A -> IO B) w r w' :
  (forall a w1, m w = (Ok a, w1) -> well_formed (tree w1) /\
     (forall r2 w2, k a w1 = (r2, w2) -> well_formed (tree w2))) ->
  (forall e w1, m w = (Err e, w1) -> well_formed (tree w1)) ->
  bind m k w = (r, w') -> well_formed (tree w').
Proof.
  intros Hok Herr. unfold bind. destruct (m w) as [[a|e] w1] eqn:Hm.
  - intros H. by apply (proj2 (Hok a w1 eq_refl) r w').
  - intros [= _ <-]. by apply (Herr e).
Qed.

Lemma ensureDir_wf p w r w' :
  well_formed (tree w) -> fsExtra.ensureDir p w = (r, w') -> well_formed (tree w').
Proof.
  intros Hwf. apply syscall_wf; [|done]. intros t r0 t' Ht. by apply mkdirs_wf.
Qed.

Lemma writeJSON_wf p obj w r w' :
  well_formed (tree w) -> fsExtra.writeJSON p obj w = (r, w') -> well_formed (tree w').
Proof.
  intros Hwf. destruct obj as [text|why]; [|by intros [= _ <-]].
  apply syscall_wf; [|done]. intros t r0 t' Ht. by apply writeFile_wf.
Qed.

Lemma remove_wf p w r w' :
  well_formed (tree w) -> fsExtra.remove p w = (r, w') -> well_formed (tree w').
Proof.
  intros Hwf. apply syscall_wf; [|done].
  intros t r0 t' Ht [= _ <-]. by apply remove_tree_wf.
Qed.

Lemma createContentId_tree this w : tree (createContentId this w).2 = tree w.
Proof.
  destruct (createContentId_loop_total this 4 0 0 w) as (id & ex & m & Hloop); [lia|].
  rewrite advance_0 in Hloop.
  unfold createContentId, createContentId_fuel, bind. rewrite Hloop.
  by destruct ex.
Qed.

(** Every operation of the store keeps the tree well formed, whatever
    faults are injected. *)
Lemma createContent_wf this metadata content user oid w :
  well_formed (tree w) ->
  well_formed (tree (createContent this metadata content user oid w).2).
Proof.
  intros Hwf.
  destruct (createContent this metadata content user oid w) as [r w'] eqn:H. simpl.
  destruct (assign_id this oid w) as [[id|e] w0] eqn:Hid.
  - assert (well_formed (tree w0)) as Hwf0.
    { destruct oid as [i|]; simpl in Hid.
      - by inversion Hid; subst.
      - apply (f_equal snd) in Hid. simpl in Hid. subst w0.
        by rewrite createContentId_tree. }
    rewrite (createContent_outcome _ _ _ _ _ _ _ _ Hid) in H.
    assert (forall r1 w1, createContent_try this metadata content id w0 = (r1, w1) ->
            well_formed (tree w1)) as Htry.
    { intros r1 w1. unfold createContent_try.
      apply bind_wf; [|by eauto using ensureDir_wf].
      intros [] wa Ha. apply (ensureDir_wf _ _ _ _ Hwf0) in Ha as Hwfa. split; [done|].
      intros r2 w2. apply bind_wf; [|by eauto using ensureDir_wf].
      intros [] wb Hb. apply (ensureDir_wf _ _ _ _ Hwfa) in Hb as Hwfb. split; [done|].
      intros r3 w3. apply bind_wf; [|by eauto using writeJSON_wf].
      intros [] wc Hc. apply (writeJSON_wf _ _ _ _ _ Hwfb) in Hc as Hwfc. split; [done|].
      intros r4 w4. by apply writeJSON_wf. }
    destruct (createContent_try this metadata content id w0) as [[[]|cause] w1] eqn:E.
    + inversion H; subst. by apply (Htry _ _ eq_refl).
    + specialize (Htry _ _ eq_refl).
      destruct (fsExtra.remove (subdirectory this id) w1) as [[[]|e] w2] eqn:Hrm;
        inversion H; subst; by apply (remove_wf _ _ _ _ Htry Hrm).
  - rewrite (createContent_unassigned _ _ _ _ _ _ _ _ Hid) in H. inversion H; subst.
    destruct oid as [i|]; simpl in Hid; [done|].
    apply (f_equal snd) in Hid. simpl in Hid. subst w'.
    by rewrite createContentId_tree.
Qed.



(** ** Attached files that are listed *)




(** ** The fuel of createContentId is never short *)

Lemma createContentId_loop_fuel this fuel1 fuel2 counter n w :
  4 <= counter + fuel1 -> 4 <= counter + fuel2 ->
  createContentId_loop this fuel1 counter (advance n w)
  = createContentId_loop this fuel2 counter (advance n w).
Proof.
  revert fuel2 counter n. induction fuel1 as [|fuel1 IH]; intros fuel2 counter n H1 H2;
    rewrite (createContentId_loop_step this _ counter n w),
            (createContentId_loop_step this fuel2 counter n w).
  - rewrite (bool_decide_eq_false_2 (counter + 1 < 5)) by lia.
    by rewrite andb_false_r.
  - destruct (bool_decide (counter + 1 < 5)) eqn:Hc; [|by rewrite andb_false_r].
    apply bool_decide_eq_true_1 in Hc.
    destruct fuel2 as [|fuel2]; [lia|].
    destruct (taken this w (candidate w n)); [|done]. cbn [andb].
    apply IH; lia.
Qed.

Lemma createContentId_fuel_enough this fuel w :
  4 <= fuel ->
  createContentId_fuel this fuel w = createContentId_fuel this 4 w
  /\ exists out w', createContentId_fuel this fuel w = (out, w') /\ out <> Ok None.
Proof.
  intros Hfuel. unfold createContentId_fuel, bind.
  pose proof (createContentId_loop_fuel this fuel 4 0 0 w) as Heq.
  rewrite advance_0 in Heq. rewrite Heq by lia. split; [done|].
  destruct (createContentId_loop_total this 4 0 0 w) as (id & ex & m & Hloop); [lia|].
  rewrite advance_0 in Hloop. rewrite Hloop.
  destruct ex; eexists _, _; (split; [reflexivity|done]).
Qed.

(** ** Distinct ids have distinct subdirectories *)

Lemma to_int_proper id : Z.to_int id <> Pos Nil /\ Z.to_int id <> Neg Nil.
Proof.
  destruct id as [|p|p]; simpl; split; try done;
    intros [= H]; by apply DecimalPos.Unsigned.to_uint_nonnil in H.
Qed.

Lemma toString_inj id1 id2 : toString id1 = toString id2 -> id1 = id2.
Proof.
  unfold toString. intros H. apply DecimalZ.to_int_inj.
  apply (f_equal NilZero.int_of_string) in H.
  destruct (to_int_proper id1), (to_int_proper id2).
  rewrite !NilZero.isi in H by done. by inversion H.
Qed.

(** ** What createContentId returns *)

Lemma createContentId_loop_result this fuel counter n w id ex w' :
  createContentId_loop this fuel counter (advance n w) = (Ok (Some (id, ex)), w') ->
  exists k, n <= k <= n + fuel /\ id = candidate w k /\ ex = taken this w id
            /\ w' = advance (S k) w.
Proof.
  revert counter n. induction fuel as [|fuel IH]; intros counter n;
    rewrite createContentId_loop_step.
  - destruct (taken this w (candidate w n) && bool_decide (counter + 1 < 5)); [done|].
    intros [= <- <- <-]. exists n. split_and!; try done; lia.
  - destruct (taken this w (candidate w n) && bool_decide (counter + 1 < 5)).
    + intros (k & Hk & ?)%IH. exists k. split; [lia|done].
    + intros [= <- <- <-]. exists n. split_and!; try done; lia.
Qed.

Lemma createContentId_result this w :
  exists k, k < 5 /\
    ((createContentId this w = (Ok (candidate w k), advance (S k) w)
      /\ taken this w (candidate w k) = false)
     \/ (createContentId this w
         = (Err (new_Error "Could not generate id for new content."), advance (S k) w)
         /\ taken this w (candidate w k) = true)).
Proof.
  destruct (createContentId_loop_total this 4 0 0 w) as (id & ex & m & Hloop); [lia|].
  destruct (createContentId_loop_result _ _ _ _ _ _ _ _ Hloop) as (k & Hk & -> & -> & Hw).
  rewrite advance_0 in Hloop.
  unfold createContentId, createContentId_fuel, bind. rewrite Hloop, Hw.
  exists k. split; [lia|]. destruct (taken this w (candidate w k)) eqn:T.
  - by right.
  - by left.
Qed.

Lemma assign_id_tree this oid w r w0 :
  assign_id this oid w = (r, w0) -> tree w0 = tree w /\ pending w0 = pending w.
Proof.
  destruct oid as [id|]; simpl.
  - by intros [= _ <-].
  - destruct (createContentId_result this w) as (k & _ & [[-> _]|[-> _]]);
      by intros [= _ <-].
Qed.

(** ** What the operations leave alone *)

Lemma same_outside_refl base t : same_outside base t t.
Proof. by intros l _ _. Qed.

Lemma same_outside_trans base t1 t2 t3 :
  same_outside base t1 t2 -> same_outside base t2 t3 -> same_outside base t1 t3.
Proof.
  intros H12 H23 l Hout Hl. rewrite <- (H12 l Hout Hl). apply (H23 l Hout).
  rewrite (H12 l Hout Hl). done.
Qed.

Lemma prefix_snoc_cases {A} (l base : list A) s :
  l `prefix_of` base ++ [s] -> l `prefix_of` base \/ l = base ++ [s].
Proof.
  intros [k Hk]. destruct k as [|x k _] using rev_ind.
  - right. by rewrite app_nil_r in Hk.
  - left. rewrite app_assoc in Hk. apply app_inj_tail in Hk as [-> _]. by exists k.
Qed.

Lemma mkdirs_same_outside base dir t r t' :
  (forall pre, pre `prefix_of` dir -> pre `prefix_of` base \/ base `prefix_of` pre) ->
  fsExtra.mkdirs [] dir t = (r, t') -> same_outside base t t'.
Proof.
  intros Hdir Hmk l Hout Hl.
  destruct (mkdirs_lookup _ _ _ _ _ l Hmk) as [?|(Hnone & _ & pre & Hne & Hpre & ->)]; [done|].
  simpl in *. exfalso. destruct (Hdir pre Hpre) as [Hpb|Hbp]; [|done].
  destruct Hl as [->|[Hl|[n Hn]]]; [done|done|congruence].
Qed.

Lemma insert_same_outside base l n t :
  base `prefix_of` l -> same_outside base t (<[l := n]> t).
Proof. intros Hin k Hout _. apply lookup_insert_ne. by intros ->. Qed.

Lemma writeFile_same_outside base p data t r t' :
  base `prefix_of` segs p -> fsExtra.writeFile p data t = (r, t') -> same_outside base t t'.
Proof.
  intros Hin. unfold fsExtra.writeFile. destruct (fsExtra.open_for_writing t p).
  - intros [= _ <-]. apply same_outside_refl.
  - intros [= _ <-]. by apply insert_same_outside.
Qed.

Lemma pipe_to_file_same_outside base s p t r t' :
  base `prefix_of` segs p -> fsExtra.pipe_to_file s p t = (r, t') -> same_outside base t t'.
Proof.
  intros Hin H k Hout _. apply (pipe_to_file_lookup _ _ _ _ _ _ H). by intros ->.
Qed.

Lemma remove_tree_same_outside p t : same_outside (segs p) t (fsExtra.remove_tree p t).2.
Proof. intros l Hout _. by apply remove_tree_elsewhere. Qed.

Lemma syscall_same_outside {A} (base : list string) (run : Tree -> Result A * Tree) w r w' :
  (forall t r t', run t = (r, t') -> same_outside base t t') ->
  syscall run w = (r, w') -> same_outside base (tree w) (tree w').
Proof.
  intros Hrun H. destruct (syscall_tree _ _ _ _ H) as [->| ->];
    [apply same_outside_refl|]. eapply Hrun, surjective_pairing.
Qed.

Lemma bind_same_outside {A B} (base : list string) (m : IO A) (k : A -> IO B) w r w' :
  (forall r1 w1, m w = (r1, w1) -> same_outside base (tree w) (tree w1)) ->
  (forall a w1 r2 w2, k a w1 = (r2, w2) -> same_outside base (tree w1) (tree w2)) ->
  bind m k w = (r, w') -> same_outside base (tree w) (tree w').
Proof.
  intros Hm Hk. unfold bind. destruct (m w) as [[a|e] w1] eqn:E.
  - intros H. eapply same_outside_trans; [by eapply Hm|by eapply Hk].
  - intros [= _ <-]. by eapply Hm.
Qed.

Lemma prefixes_of_subdirectory (base : list string) pre :
  pre `prefix_of` base -> pre `prefix_of` base \/ base `prefix_of` pre.
Proof. by left. Qed.

Lemma prefixes_of_child (base : list string) s pre :
  pre `prefix_of` base ++ [s] -> pre `prefix_of` base \/ base `prefix_of` pre.
Proof.
  intros [?| ->]%prefix_snoc_cases; [by left|right]. by apply prefix_app_r.
Qed.

Lemma createContent_try_same_outside this metadata content id w r w' :
  createContent_try this metadata content id w = (r, w') ->
  same_outside (root this ++ [toString id]) (tree w) (tree w').
Proof.
  unfold createContent_try. fold (subdirectory this id). fold (file_area this id).
  rewrite subdirectory_eq, file_area_eq, metadata_path_eq, content_path_eq.
  set (base := root this ++ [toString id]).
  apply bind_same_outside.
  { intros r1 w1. apply syscall_same_outside. intros t r0 t'.
    apply mkdirs_same_outside, prefixes_of_subdirectory. }
  intros _ wa r2 w2. apply bind_same_outside.
  { intros r1 w1. apply syscall_same_outside. intros t r0 t'.
    apply mkdirs_same_outside. cbn [segs].
    change (root this ++ [toString id; "content"]) with (root this ++ [toString id] ++ ["content"]).
    rewrite app_assoc. apply prefixes_of_child. }
  intros _ wb r3 w3. apply bind_same_outside.
  { intros r1 w1. destruct metadata as [text|why]; simpl.
    - apply syscall_same_outside. intros t r0 t'. apply writeFile_same_outside.
      cbn [segs]. exists ["h5p.json"]. unfold base. by rewrite <- app_assoc.
    - intros [= _ <-]. apply same_outside_refl. }
  intros _ wc r4 w4. destruct content as [text|why]; simpl.
  - apply syscall_same_outside. intros t r0 t'. apply writeFile_same_outside.
    cbn [segs]. exists ["content"; "content.json"]. unfold base. by rewrite <- app_assoc.
  - intros [= _ <-]. apply same_outside_refl.
Qed.

Lemma remove_same_outside p w r w' :
  fsExtra.remove p w = (r, w') -> same_outside (segs p) (tree w) (tree w').
Proof.
  apply syscall_same_outside. intros t r0 t' [= _ <-]. apply remove_tree_same_outside.
Qed.

Lemma createContent_same_outside this metadata content user oid w id w0 :
  assign_id this oid w = (Ok id, w0) ->
  same_outside (root this ++ [toString id]) (tree w)
    (tree (createContent this metadata content user oid w).2).
Proof.
  intros Hid. rewrite (createContent_outcome _ _ _ _ _ _ _ _ Hid).
  destruct (assign_id_tree _ _ _ _ _ Hid) as [<- _].
  destruct (createContent_try this metadata content id w0) as [[[]|cause] w1] eqn:Htry;
    apply createContent_try_same_outside in Htry; [done|].
  destruct (fsExtra.remove (subdirectory this id) w1) as [r2 w2] eqn:Hrm.
  apply remove_same_outside in Hrm. rewrite subdirectory_eq in Hrm. cbn [segs] in Hrm.
  assert (same_outside (root this ++ [toString id]) (tree w0) (tree w2))
    by (by eapply same_outside_trans).
  by destruct r2 as [[]|e].
Qed.

Lemma deleteContent_same_outside this id user w :
  same_outside (root this ++ [toString id]) (tree w) (tree (deleteContent this id user w).2).
Proof.
  unfold deleteContent, bind. fold (contentExists this id). rewrite contentExists_eq.
  destruct (taken this w id); cbn [negb]; [|apply same_outside_refl].
  fold (subdirectory this id).
  destruct (fsExtra.remove (subdirectory this id) w) as [r w'] eqn:Hrm.
  apply remove_same_outside in Hrm. by rewrite subdirectory_eq in Hrm.
Qed.

Lemma addContentFile_same_outside this id filename stream user w :
  climbs filename = false ->
  same_outside (root this ++ [toString id]) (tree w)
    (tree (addContentFile this id filename stream user w).2).
Proof.
  intros Hclimb. unfold addContentFile, bind.
  fold (contentExists this id). rewrite contentExists_eq.
  destruct (taken this w id); cbn [negb]; [|apply same_outside_refl]. cbv zeta.
  destruct (join_no_climb this [toString id; "content"] filename) as [rest Hfull];
    [repeat constructor; apply toString_regular|done|].
  change (contentPath this :: [toString id; "content"] ++ [filename])
    with [contentPath this; toString id; "content"; filename] in Hfull.
  set (fullPath := path.join [contentPath this; toString id; "content"; filename]) in *.
  set (base := root this ++ [toString id]).
  assert (segs fullPath = base ++ "content" :: rest) as Hfull'
    by (rewrite Hfull; unfold base; by rewrite <- app_assoc).
  assert (base `prefix_of` segs fullPath) as Hin by (rewrite Hfull'; by eexists).
  assert (base `prefix_of` segs (path.dirname fullPath)) as Hdirin.
  { cbn [path.dirname segs]. rewrite Hfull'.
    destruct (exists_last (l := "content" :: rest)) as (k & s & ->); [done|].
    rewrite app_assoc, removelast_last. by exists k. }
  destruct (fsExtra.ensureDir (path.dirname fullPath) w) as [[[]|e] wa] eqn:Hmk.
  - destruct (promisepipe stream (fsExtra.createWriteStream fullPath) wa) as [r wb] eqn:Hpipe.
    simpl. eapply same_outside_trans.
    + revert Hmk. apply syscall_same_outside. intros t r0 t'.
      apply mkdirs_same_outside. intros pre Hpre.
      destruct (prefix_weak_total _ _ _ Hpre Hdirin); [by left|by right].
    + revert Hpipe. apply syscall_same_outside. intros t r0 t'.
      by apply pipe_to_file_same_outside.
  - simpl. revert Hmk. apply syscall_same_outside. intros t r0 t'.
    apply mkdirs_same_outside. intros pre Hpre.
    destruct (prefix_weak_total _ _ _ Hpre Hdirin); [by left|by right].
Qed.

(** * Further properties of the store *)







(** ** Creating content under a fresh id *)

Lemma root_prefixes_present this t pre :
  well_formed t -> fsExtra.node_at t (root this) = Some Dir ->
  pre <> [] -> pre `prefix_of` root this -> t !! pre = Some Dir.
Proof.
  intros Hwf Hroot Hne [k Hk]. destruct k as [|s k].
  - rewrite app_nil_r in Hk. rewrite Hk in Hroot. by apply node_at_lookup in Hroot.
  - rewrite Hk in Hroot. apply node_at_lookup in Hroot; [|by destruct pre].
    apply (wf_ancestor t pre (s :: k) Dir Hwf) in Hroot; [|done].
    by apply node_at_lookup in Hroot.
Qed.

Lemma nothing_below t base k :
  well_formed t -> base <> [] -> t !! base = None -> t !! (base ++ k) = None.
Proof.
  intros Hwf Hne Hbase. destruct k as [|s k]; [by rewrite app_nil_r|].
  destruct (t !! (base ++ s :: k)) as [n|] eqn:E; [|done].
  apply (wf_ancestor t base (s :: k) n Hwf) in E; [|done].
  apply node_at_lookup in E; [congruence|done].
Qed.





(** ** Ids keep apart *)

Lemma other_subdirectory_outside this id id' l :
  id' <> id -> root this ++ [toString id'] `prefix_of` l ->
  ~ root this ++ [toString id] `prefix_of` l
  /\ ~ l `prefix_of` root this ++ [toString id].
Proof.
  intros Hne [k ->]. split.
  - intros [k' E]. rewrite <- !app_assoc in E. apply app_inv_head in E.
    simpl in E. injection E as Hid _. apply toString_inj in Hid. congruence.
  - intros [k' E]. rewrite <- !app_assoc in E. apply app_inv_head in E.
    simpl in E. injection E as Hid _. apply toString_inj in Hid. congruence.
Qed.

Lemma same_outside_other_id this id id' t t' l :
  same_outside (root this ++ [toString id]) t t' ->
  id' <> id -> segs (subdirectory this id') `prefix_of` l -> t' !! l = t !! l.
Proof.
  intros Hsame Hne Hl. rewrite subdirectory_eq in Hl. cbn [segs] in Hl.
  destruct (other_subdirectory_outside this id id' l Hne Hl) as [H1 H2].
  apply Hsame; auto.
Qed.

(** X6: when [createContent] is called without an id and returns, the
    id it returns lies in [1, 2^32] and did not exist before the call,
    and nothing at or below the subdirectory of any content that existed
    before the call has changed. *)
Theorem createContent_generated_id_is_fresh
    (this : FileContentStorage) (metadata : IContentMetadata) (content : Document)
    (user : IUser) (w : World) (id : ContentId) (w' : World) :
  createContent this metadata content user None w = (Ok id, w') ->
  (1 <= id <= 2 ^ 32)%Z
  /\ contentExists this id w = (Ok false, w)
  /\ forall id' l,
       contentExists this id' w = (Ok true, w) ->
       segs (subdirectory this id') `prefix_of` l ->
       tree w' !! l = tree w !! l.
Proof.
  intros Hcreate.
  destruct (createContent_returns _ _ _ _ _ _ _ _ Hcreate) as (w0 & Hid & _).
  assert (taken this w id = false /\ (1 <= id <= 2 ^ 32)%Z) as [Hfree Hrange].
  { simpl in Hid. destruct (createContentId_result this w) as (k & _ & [[E T]|[E _]]);
      rewrite E in Hid; [|done]. inversion Hid; subst. split; [done|apply candidate_range]. }
  split_and!; [lia..| |].
  - by rewrite contentExists_eq, Hfree.
  - intros id' l Hex Hl. rewrite contentExists_eq in Hex.
    pose proof (createContent_same_outside this metadata content user None w id w0 Hid) as Hs.
    rewrite Hcreate in Hs. cbn [snd] in Hs.
    apply (same_outside_other_id this id id' _ _ l Hs); [|done].
    intros ->. congruence.
Qed.

Lemma createContent_generated_id_is_fresh_witness :
  createContent demo_store (Json "{7}") (Json "[7]") demo_user None busy_world
  = (Ok 7%Z, (createContent demo_store (Json "{7}") (Json "[7]") demo_user None busy_world).2)
  /\ (1 <= 7 <= 2 ^ 32)%Z
  /\ contentExists demo_store 7%Z busy_world = (Ok false, busy_world)
  /\ forall id' l,
       contentExists demo_store id' busy_world = (Ok true, busy_world) ->
       segs (subdirectory demo_store id') `prefix_of` l ->
       tree (createContent demo_store (Json "{7}") (Json "[7]") demo_user None busy_world).2
         !! l
       = tree busy_world !! l.
Proof.
  assert (createContent demo_store (Json "{7}") (Json "[7]") demo_user None busy_world
          = (Ok 7%Z, (createContent demo_store (Json "{7}") (Json "[7]") demo_user None
                        busy_world).2)) as Hcreate by (vm_compute; reflexivity).
  split; [exact Hcreate|].
  exact (createContent_generated_id_is_fresh demo_store (Json "{7}") (Json "[7]") demo_user
           busy_world 7%Z _ Hcreate).
Defined.

(** X7: [addContentFile] never removes or alters an entry other than the
    file it writes: every entry of the tree that existed before the call,
    at any path but the target [root/id/content/filename], is the same
    after it, whether the call succeeds or fails. *)
Theorem addContentFile_keeps_other_entries
    (this : FileContentStorage) (id : ContentId) (filename : string) (stream : Stream)
    (user : IUser) (w : World) (l : list string) (n : node) :
  l <> segs (path.join [contentPath this; toString id; "content"; filename]) ->
  tree w !! l = Some n ->
  tree (addContentFile this id filename stream user w).2 !! l = Some n.
Proof.
  intros Hl Hn. unfold addContentFile, bind.
  fold (contentExists this id). rewrite contentExists_eq.
  destruct (taken this w id); cbn [negb]; [|done]. cbv zeta.
  set (fullPath := path.join [contentPath this; toString id; "content"; filename]) in *.
  assert (forall r wa, fsExtra.ensureDir (path.dirname fullPath) w = (r, wa) ->
          tree wa !! l = Some n) as Hdir.
  { intros r wa Hmk. destruct (syscall_tree _ _ _ _ Hmk) as [->| ->]; [done|].
    eapply mkdirs_preserves; [apply surjective_pairing|done]. }
  destruct (fsExtra.ensureDir (path.dirname fullPath) w) as [[[]|e] wa] eqn:Hmk;
    specialize (Hdir _ _ eq_refl); [|done].
  destruct (promisepipe stream (fsExtra.createWriteStream fullPath) wa) as [r wb] eqn:Hpipe.
  simpl. destruct (syscall_tree _ _ _ _ Hpipe) as [->| ->]; [done|].
  erewrite pipe_to_file_lookup; [done|apply surjective_pairing|done].
Qed.

Lemma addContentFile_keeps_other_entries_witness :
  ["data"; "42"; "content"; "images"; "a.png"]
  <> segs (path.join [contentPath demo_store; toString 42%Z; "content"; "images/b.png"])
  /\ tree stored_world !! ["data"; "42"; "content"; "images"; "a.png"]
     = Some (File "0123456789")
  /\ tree (addContentFile demo_store 42%Z "images/b.png" licence demo_user stored_world).2
       !! ["data"; "42"; "content"; "images"; "a.png"]
     = Some (File "0123456789").
Proof.
  assert (["data"; "42"; "content"; "images"; "a.png"]
          <> segs (path.join [contentPath demo_store; toString 42%Z; "content";
                              "images/b.png"])) as Hl by (vm_compute; discriminate).
  assert (tree stored_world !! ["data"; "42"; "content"; "images"; "a.png"]
          = Some (File "0123456789")) as Hn by (vm_compute; reflexivity).
  split_and!; [exact Hl|exact Hn|].
  exact (addContentFile_keeps_other_entries demo_store 42%Z "images/b.png" licence demo_user
           stored_world _ _ Hl Hn).
Defined.

(** X8: contents are isolated from one another.  For two different ids,
    nothing at or below the subdirectory of the one changes when
    [createContent] (succeeding, rolling back or failing to), or
    [deleteContent], or [addContentFile] with a file name that does not
    climb, is called on the other. *)
Theorem operations_leave_other_contents_alone
    (this : FileContentStorage) (id id' : ContentId) (l : list string) :
  id' <> id ->
  segs (subdirectory this id') `prefix_of` l ->
  (forall metadata content user w,
     tree (createContent this metadata content user (Some id) w).2 !! l = tree w !! l) /\
  (forall user w, tree (deleteContent this id user w).2 !! l = tree w !! l) /\
  (forall filename stream user w,
     climbs filename = false ->
     tree (addContentFile this id filename stream user w).2 !! l = tree w !! l).
Proof.
  intros Hne Hl. split_and!.
  - intros metadata content user w.
    apply (same_outside_other_id this id id'); [|done..].
    by apply (createContent_same_outside this metadata content user (Some id) w id w).
  - intros user w. apply (same_outside_other_id this id id'); [|done..].
    apply deleteContent_same_outside.
  - intros filename stream user w Hclimb.
    apply (same_outside_other_id this id id'); [|done..].
    by apply addContentFile_same_outside.
Qed.

Lemma operations_leave_other_contents_alone_witness :
  43%Z <> 42%Z
  /\ segs (subdirectory demo_store 43%Z) `prefix_of` ["data"; "43"; "h5p.json"]
  /\ (forall metadata content user w,
        tree (createContent demo_store metadata content user (Some 42%Z) w).2
          !! ["data"; "43"; "h5p.json"]
        = tree w !! ["data"; "43"; "h5p.json"]) /\
     (forall user w,
        tree (deleteContent demo_store 42%Z user w).2 !! ["data"; "43"; "h5p.json"]
        = tree w !! ["data"; "43"; "h5p.json"]) /\
     (forall filename stream user w,
        climbs filename = false ->
        tree (addContentFile demo_store 42%Z filename stream user w).2
          !! ["data"; "43"; "h5p.json"]
        = tree w !! ["data"; "43"; "h5p.json"]).
Proof.
  assert (43%Z <> 42%Z) as Hne by discriminate.
  assert (segs (subdirectory demo_store 43%Z) `prefix_of` ["data"; "43"; "h5p.json"]) as Hl
    by (exists ["h5p.json"]; reflexivity).
  split; [exact Hne|]. split; [exact Hl|].
  exact (operations_leave_other_contents_alone demo_store 42%Z 43%Z _ Hne Hl).
Defined.

(** ** Deleting *)

(** X9: when [deleteContent] returns, every entry at or below the id's
    subdirectory is gone (the metadata document, the content document and
    every attached file with it) and every other entry of the tree is
    exactly what it was. *)
Theorem deleteContent_removes_exactly_the_subdirectory
    (this : FileContentStorage) (id : ContentId) (user : option IUser) (w w' : World) :
  deleteContent this id user w = (Ok tt, w') ->
  (forall l, segs (subdirectory this id) `prefix_of` l -> tree w' !! l = None) /\
  (forall l, ~ segs (subdirectory this id) `prefix_of` l -> tree w' !! l = tree w !! l).
Proof.
  unfold deleteContent, bind. fold (contentExists this id). rewrite contentExists_eq.
  destruct (taken this w id); cbn [negb]; [|done]. fold (subdirectory this id).
  intros Hrm%remove_ok. rewrite Hrm. split.
  - intros l Hl. by apply remove_tree_below.
  - intros l Hl. by apply remove_tree_elsewhere.
Qed.

Lemma deleteContent_removes_exactly_the_subdirectory_witness :
  deleteContent demo_store 42%Z None two_contents_world
  = (Ok tt, (deleteContent demo_store 42%Z None two_contents_world).2)
  /\ (forall l, segs (subdirectory demo_store 42%Z) `prefix_of` l ->
                tree (deleteContent demo_store 42%Z None two_contents_world).2 !! l = None)
  /\ (forall l, ~ segs (subdirectory demo_store 42%Z) `prefix_of` l ->
                tree (deleteContent demo_store 42%Z None two_contents_world).2 !! l
                = tree two_contents_world !! l).
Proof.
  assert (deleteContent demo_store 42%Z None two_contents_world
          = (Ok tt, (deleteContent demo_store 42%Z None two_contents_world).2)) as Hdel
    by (vm_compute; reflexivity).
  split; [exact Hdel|].
  exact (deleteContent_removes_exactly_the_subdirectory demo_store 42%Z None
           two_contents_world _ Hdel).
Defined.

(** X10: creating and then deleting is a round trip.  In a well-formed
    tree whose storage root is a directory, if [createContent] is called
    with an id that does not exist and returns, and [deleteContent] on
    that id then returns, the file tree is exactly what it was before the
    creation: no residue is left. *)
Theorem create_then_delete_restores_the_tree
    (this : FileContentStorage) (metadata : IContentMetadata) (content : Document)
    (user : IUser) (deleter : option IUser) (id : ContentId) (w w1 w2 : World) :
  well_formed (tree w) ->
  fsExtra.node_at (tree w) (root this) = Some Dir ->
  contentExists this id w = (Ok false, w) ->
  createContent this metadata content user (Some id) w = (Ok id, w1) ->
  deleteContent this id deleter w1 = (Ok tt, w2) ->
  tree w2 = tree w.
Proof.
  intros Hwf Hroot Hfree Hcreate Hdelete.
  rewrite contentExists_eq in Hfree. assert (taken this w id = false) as Htaken by congruence.
  rewrite taken_lookup in Htaken. apply bool_decide_eq_false_1 in Htaken.
  assert (tree w !! (root this ++ [toString id]) = None) as Hnone
    by (destruct (tree w !! (root this ++ [toString id])); [by destruct Htaken|done]).
  assert (root this ++ [toString id] <> []) as Hne by (by destruct (root this)).
  pose proof (createContent_same_outside this metadata content user (Some id) w id w eq_refl)
    as Hs1.
  rewrite Hcreate in Hs1. cbn [snd] in Hs1.
  pose proof (deleteContent_same_outside this id deleter w1) as Hs2.
  rewrite Hdelete in Hs2. cbn [snd] in Hs2.
  pose proof (same_outside_trans _ _ _ _ Hs1 Hs2) as Hs.
  unfold deleteContent, bind in Hdelete. fold (contentExists this id) in Hdelete.
  rewrite contentExists_eq in Hdelete.
  destruct (taken this w1 id); cbn [negb] in Hdelete; [|done].
  fold (subdirectory this id) in Hdelete. apply remove_ok in Hdelete.
  apply map_eq. intros l.
  destruct (decide (root this ++ [toString id] `prefix_of` l)) as [[k ->]|Hout].
  - rewrite Hdelete, remove_tree_below by (rewrite subdirectory_eq; by eexists).
    symmetry. by apply nothing_below.
  - apply Hs; [done|].
    destruct (decide (l = [])) as [->|Hl]; [by left|]. right.
    destruct (decide (l `prefix_of` root this ++ [toString id])) as [Hpre|?]; [|by left].
    right. apply prefix_snoc_cases in Hpre as [Hpre| ->]; [|by destruct Hout].
    exists Dir. by apply (root_prefixes_present this).
Qed.

Lemma create_then_delete_restores_the_tree_witness :
  well_formed (tree created_world)
  /\ fsExtra.node_at (tree created_world) (root demo_store) = Some Dir
  /\ contentExists demo_store 43%Z created_world = (Ok false, created_world)
  /\ createContent demo_store (Json "{43}") (Json "[43]") demo_user (Some 43%Z) created_world
     = (Ok 43%Z, two_contents_world)
  /\ deleteContent demo_store 43%Z None two_contents_world
     = (Ok tt, (deleteContent demo_store 43%Z None two_contents_world).2)
  /\ tree (deleteContent demo_store 43%Z None two_contents_world).2 = tree created_world.
Proof.
  assert (well_formed (tree created_world)) as Hwf
    by (apply (bool_decide_unpack _); vm_compute; exact I).
  assert (fsExtra.node_at (tree created_world) (root demo_store) = Some Dir) as Hroot
    by (vm_compute; reflexivity).
  assert (contentExists demo_store 43%Z created_world = (Ok false, created_world)) as Hfree
    by reflexivity.
  assert (createContent demo_store (Json "{43}") (Json "[43]") demo_user (Some 43%Z)
            created_world = (Ok 43%Z, two_contents_world)) as Hcreate by reflexivity.
  assert (deleteContent demo_store 43%Z None two_contents_world
          = (Ok tt, (deleteContent demo_store 43%Z None two_contents_world).2)) as Hdelete
    by (vm_compute; reflexivity).
  split; [exact Hwf|]. split; [exact Hroot|]. split; [exact Hfree|].
  split; [exact Hcreate|]. split; [exact Hdelete|].
  exact (create_then_delete_restores_the_tree demo_store (Json "{43}") (Json "[43]") demo_user
           None 43%Z created_world two_contents_world _ Hwf Hroot Hfree Hcreate Hdelete).
Defined.

(** ** Listing and attaching at the edges *)



(** X12: when the five ids [createContentId] draws all exist,
    [createContent] called without an id fails with the error "Could not
    generate id for new content.", unwrapped (the id is generated outside
    the [try] block), and it has written nothing and made no call into the
    file system that could reject: the tree and the fault schedule are
    what they were. *)
Theorem createContent_without_free_id
    (this : FileContentStorage) (metadata : IContentMetadata) (content : Document)
    (user : IUser) (w : World) :
  (forall k, k < 5 -> contentExists this (candidate w k) w = (Ok true, w)) ->
  exists w',
    createContent this metadata content user None w
    = (Err (new_Error "Could not generate id for new content."), w')
    /\ tree w' = tree w /\ pending w' = pending w.
Proof.
  intros Hall.
  destruct (createContentId_result this w) as (k & Hk & [[E T]|[E _]]).
  - specialize (Hall k Hk). rewrite contentExists_eq in Hall. congruence.
  - exists (advance (S k) w). split; [|done].
    by apply (createContent_unassigned this metadata content user None w).
Qed.

Lemma createContent_without_free_id_witness :
  (forall k, k < 5 ->
     contentExists demo_store (candidate crowded_world k) crowded_world
     = (Ok true, crowded_world))
  /\ exists w',
       createContent demo_store (Json "{}") (Json "{}") demo_user None crowded_world
       = (Err (new_Error "Could not generate id for new content."), w')
       /\ tree w' = tree crowded_world /\ pending w' = pending crowded_world.
Proof.
  assert (forall k, k < 5 ->
            contentExists demo_store (candidate crowded_world k) crowded_world
            = (Ok true, crowded_world)) as Hall by (intros k _; reflexivity).
  split; [exact Hall|].
  exact (createContent_without_free_id demo_store (Json "{}") (Json "{}") demo_user
           crowded_world Hall).
Defined.



(** X14: [createContent] is idempotent on the file tree.  When it has
    returned for an id and is called again with the same id and the same
    documents (no fault injected into the second call), the second call
    returns the id again and the tree is exactly what the first call
    left, attached files included. *)
Theorem createContent_again_changes_nothing
    (this : FileContentStorage) (mt ct : string) (user : IUser) (id : ContentId)
    (w w1 : World) :
  well_formed (tree w) ->
  createContent this (Json mt) (Json ct) user (Some id) w = (Ok id, w1) ->
  fault_free 4 w1 ->
  exists w2,
    createContent this (Json mt) (Json ct) user (Some id) w1 = (Ok id, w2)
    /\ tree w2 = tree w1.
Proof.
  intros Hwf Hcreate Hff.
  assert (well_formed (tree w1)) as Hwf1.
  { pose proof (createContent_wf this (Json mt) (Json ct) user (Some id) w Hwf) as H.
    by rewrite Hcreate in H. }
  destruct (createContent_returns _ _ _ _ _ _ _ _ Hcreate) as (w0 & Hid & Htry).
  apply createContent_try_ok in Htry as (mt' & ct' & [= <-] & [= <-] & K1 & K2 & K3 & K4).
  destruct (createContent_try_existing this mt ct id w1) as (w2 & Htry2 & Htree); try done.
  - by rewrite subdirectory_stat.
  - unfold layout_clear. rewrite file_area_eq, metadata_path_eq, content_path_eq.
    rewrite !stat_plain by (by destruct (root this)). by rewrite K2, K3, K4.
  - exists w2.
    rewrite (createContent_outcome this (Json mt) (Json ct) user (Some id) w1 id w1 eq_refl).
    rewrite Htry2. split; [done|].
    rewrite Htree. rewrite (insert_id (tree w1) _ Dir) by done.
    rewrite (insert_id (tree w1) _ (File (mt +:+ newline))) by done.
    by rewrite insert_id.
Qed.

Lemma createContent_again_changes_nothing_witness :
  well_formed (tree created_world)
  /\ createContent demo_store (Json "{43}") (Json "[43]") demo_user (Some 43%Z) created_world
     = (Ok 43%Z, two_contents_world)
  /\ fault_free 4 two_contents_world
  /\ exists w2,
       createContent demo_store (Json "{43}") (Json "[43]") demo_user (Some 43%Z)
         two_contents_world = (Ok 43%Z, w2)
       /\ tree w2 = tree two_contents_world.
Proof.
  assert (well_formed (tree created_world)) as Hwf
    by (apply (bool_decide_unpack _); vm_compute; exact I).
  assert (createContent demo_store (Json "{43}") (Json "[43]") demo_user (Some 43%Z)
            created_world = (Ok 43%Z, two_contents_world)) as Hcreate by reflexivity.
  assert (fault_free 4 two_contents_world) as Hff by (vm_compute; constructor).
  split; [exact Hwf|]. split; [exact Hcreate|]. split; [exact Hff|].
  exact (createContent_again_changes_nothing demo_store "{43}" "[43]" demo_user 43%Z
           created_world two_contents_world Hwf Hcreate Hff).
Defined.


